(** * Minimum-weight perfect matching decoder (qsurface/decoders/mwpm/sim.py)

    A shallow embedding of the [Toric] and [Planar] decoder classes and the
    properties of their distance-graph builders, matching adapter, correction
    walker, failure estimator and [decode] entry points. *)

From stdpp Require Import base list numbers strings gmap.
From Stdlib Require Import ZArith QArith Lia.

Local Open Scope Z_scope.

(** ** Python values *)

(** The exceptions the decoder can meet. *)
Inductive exn : Type :=
  | ZeroDivisionError
  | FileNotFoundError
  | KeyError
  | IndexError
  | UnboundLocalError
  | AttributeError
  | AssertionError
  | NetworkXNoPath
  | NodeNotFound.

(** A computation either returns a value or raises. *)
Inductive res (A : Type) : Type :=
  | Ok (a : A)
  | Raise (e : exn).
Arguments Ok {A} a.
Arguments Raise {A} e.

Definition bind {A B : Type} (c : res A) (k : A → res B) : res B :=
  match c with
  | Ok a => k a
  | Raise e => Raise e
  end.

Notation "'do' x <- c ; k" := (bind c (fun x => k))
  (at level 10, x pattern, c at level 100, k at level 200).

(** A [for] loop over a list whose body updates an accumulator and may raise. *)
Fixpoint for_each {A S : Type} (xs : list A) (body : A → S → res S) (s : S) : res S :=
  match xs with
  | [] => Ok s
  | x :: xs' =>
      match body x s with
      | Ok s' => for_each xs' body s'
      | Raise e => Raise e
      end
  end.

(** [enumerate(l, start=k)]. *)
Definition enumerate_from {A : Type} (k : nat) (l : list A) : list (nat * A) :=
  imap (fun i a => ((k + i)%nat, a)) l.
Definition enumerate {A : Type} (l : list A) : list (nat * A) := enumerate_from 0 l.

(** [a % b] on Python integers: floored, and an error when [b] is zero. *)
Definition py_mod (a b : Z) : res Z :=
  if decide (b = 0) then Raise ZeroDivisionError else Ok (a mod b).

(** Lattice coordinates are multiples of one half (star operators sit on
    whole coordinates, plaquette operators on half ones).  A coordinate [c]
    is stored as the integer [2 * c], so [int(c)] truncates toward zero. *)
Definition py_int (twice : Z) : Z := twice `quot` 2.

(** ** Lattice sites *)

Record Qubit : Type := mkQubit {
  loc : Z * Z;            (* (x, y), in half units *)
  z : Z;                  (* layer index *)
  state_type : string;    (* "x" or "z" *)
  qubit_type : string;    (* "A" for an ancilla, "pA" for a boundary pseudo-qubit *)
}.

Global Instance Qubit_eq_dec : EqDecision Qubit.
Proof. solve_decision. Defined.

(** A weighted edge [[nodeA, nodeB, weight]]. *)
Abbreviation WEdge := (nat * nat * Z)%type.

(** ** Collaborators

    The lattice model, the syndrome extraction of the [Sim] template and the
    graph services of networkx and Blossom V live outside this module; the
    decoder is modelled over their interfaces. *)

(** A walking direction: the key of the neighbouring data qubit, one of
    [(0.5, 0)], [(-0.5, 0)], [(0, -0.5)], [(0, 0.5)], in half units. *)
Abbreviation Key := (Z * Z)%type.

(** The [Edge] object of a data qubit: its state type and its two end nodes. *)
Record DQEdge : Type := mkDQEdge {
  edge_state_type : string;
  nodes : Qubit * Qubit;
}.

Class Lattice (L : Type) : Type := {
  (* self.code.size *)
  size : L → Z * Z;
  (* self.code.ancilla_qubits[self.code.decode_layer] *)
  ancilla_qubits : L → gmap (Z * Z) Qubit;
  (* self.code.pseudo_qubits[self.code.decode_layer] *)
  pseudo_qubits : L → gmap (Z * Z) Qubit;
  (* self.correct_edge(qubit, key): flips the edge next to [qubit] in
     direction [key] and returns the site reached; raises, leaving the
     lattice as it is, when there is no such edge *)
  correct_edge : L → Qubit → Key → res (L * Qubit);
  (* self.get_syndrome() *)
  get_syndrome : L → list Qubit * list Qubit;
  (* self.get_syndrome(find_pseudo=True) *)
  get_syndrome_pseudo : L → list (Qubit * Qubit) * list (Qubit * Qubit);
  (* [dq.edges['x'] for dq in all data qubits of all layers] *)
  data_qubit_edges_x : L → list DQEdge;
  (* self.code.error_rates: the value under the key 'p_bitflip', a float
     taken at its exact value, or [None] when the key is absent *)
  p_bitflip : L → option Q;
}.

(** The weight of an edge of the failure-estimation graph: either the
    float [-np.log(p / (1 - p))] at the error rate [p], kept as the rate it
    is computed from, or [0]. *)
Inductive GWeight : Type := w_log_odds (p : Q) | w_zero.

(** A networkx graph, as the sequence of its [add_edge] calls. *)
Abbreviation Graph := (list (Qubit * Qubit * GWeight)).

(** [self.code.error_rates['p_bitflip']]: a missing key raises. *)
Definition error_rate `{Lattice L} (c : L) : res Q :=
  match p_bitflip c with
  | Some p => Ok p
  | None => Raise KeyError
  end.

(** [-np.log(p / (1 - p))] on a Python float [p]: the division raises when
    [1 - p] is zero, which for floats as for their exact values is when [p]
    is 1; the logarithm itself never raises. *)
Definition log_odds_weight (p : Q) : res GWeight :=
  if Qeq_bool (1 - p) 0 then Raise ZeroDivisionError else Ok (w_log_odds p).

Class Services : Type := {
  (* nx.algorithms.matching.max_weight_matching(graph, maxcardinality), on the
     graph given by its add_edge calls *)
  max_weight_matching : list WEdge → bool → list (Z * Z);
  (* ctypes.CDLL(".../PMlib.so"): [None] when the library cannot be loaded,
     else its pyMatching(num_nodes, numEdges, nodes1, nodes2, weights) *)
  PMlib : option (Z → Z → list Z → list Z → list Z → list Z);
  (* the result type of a shortest-path length (a float) *)
  PathLength : Type;
  (* nx.single_source_dijkstra(G, s, t)[0] *)
  single_source_dijkstra : Graph → Qubit → Qubit → res PathLength;
  (* the order in which a Python set of sites, filled in the given insertion
     order, is iterated *)
  set_iter : list Qubit → list Qubit;
}.

(** [l[i]] on a Python list: negative indices count from the end. *)
Definition py_getitem {A : Type} (l : list A) (i : Z) : res A :=
  let j := if decide (i < 0) then i + Z.of_nat (length l) else i in
  if decide (j < 0) then Raise IndexError
  else match l !! Z.to_nat j with
       | Some a => Ok a
       | None => Raise IndexError
       end.

(** A ctypes [c_int]: 32 bits, two's complement, wrapping silently. *)
Definition c_int (v : Z) : Z := (v + 2 ^ 31) mod 2 ^ 32 - 2 ^ 31.

(** The calls a decoding pass makes, in order. *)
Inductive Call : Type :=
  | ExtractSyndromes
  | BuildGraph (sites : list Qubit)
  | Match (edges : list WEdge) (num_nodes : nat)
  | Correct (sites : list Qubit) (matching : list (Z * Z))
  | EstimateFailure.

(** The decoder object: the code it decodes, the scratch attributes the
    planar decoder keeps between its steps, and the log of calls made. *)
Record Sim (L : Type) : Type := mkSim {
  code : L;
  config_max_cardinality : bool;          (* self.config["max_cardinality"] *)
  self_edges : list WEdge;                (* self.edges *)
  self_matching : list (Z * Z);           (* self.matching *)
  boundary_info : list string;            (* self.boundary_info *)
  ancillas_matchingind : list (option Qubit);  (* self.ancillas_matchingind *)
  calls : list Call;
}.
Arguments mkSim {L}.
Arguments code {L}.
Arguments config_max_cardinality {L}.
Arguments self_edges {L}.
Arguments self_matching {L}.
Arguments boundary_info {L}.
Arguments ancillas_matchingind {L}.
Arguments calls {L}.

Definition set_code {L} (s : Sim L) (c : L) : Sim L :=
  mkSim c (config_max_cardinality s) (self_edges s) (self_matching s)
        (boundary_info s) (ancillas_matchingind s) (calls s).
Definition log {L} (s : Sim L) (c : Call) : Sim L :=
  mkSim (code s) (config_max_cardinality s) (self_edges s) (self_matching s)
        (boundary_info s) (ancillas_matchingind s) (calls s ++ [c]).

Definition set_scratch {L} (s : Sim L) (e : list WEdge) (bi : list string)
    (ami : list (option Qubit)) : Sim L :=
  mkSim (code s) (config_max_cardinality s) e (self_matching s) bi ami (calls s).
Definition set_matching {L} (s : Sim L) (m : list (Z * Z)) : Sim L :=
  mkSim (code s) (config_max_cardinality s) (self_edges s) m
        (boundary_info s) (ancillas_matchingind s) (calls s).

(** [l[i] = v] on a Python list, for the non-negative indices the decoder uses. *)
Definition py_setitem {A : Type} (l : list A) (i : nat) (v : A) : res (list A) :=
  if decide (i < length l)%nat then Ok (<[i := v]> l) else Raise IndexError.

(** ** class Toric *)

Module Toric.

Definition pair_weight (size : Z * Z) (q0 q1 : Qubit) : res Z :=
  let '(x0, y0) := loc q0 in
  let z0 := z q0 in
  let '(x1, y1) := loc q1 in
  let z1 := z q1 in
  do wx <- py_mod (py_int (x0 - x1)) (fst size);
  do wy <- py_mod (py_int (y0 - y1)) (snd size);
  let wz := Z.abs (z0 - z1) in
  Ok (Z.min wy (snd size - wy) + Z.min wx (fst size - wx) + wz).

Definition get_qubit_distances (qubits : list Qubit) (size : Z * Z) : res (list WEdge) :=
  for_each (enumerate (removelast qubits)) (fun '(i0, q0) edges =>
    for_each (enumerate (drop (i0 + 1) qubits)) (fun '(i1, q1) edges =>
      do weight <- pair_weight size q0 q1;
      Ok (edges ++ [((i0, (i1 + i0 + 1)%nat), weight)])) edges) [].

Definition match_networkx `{Services} (edges : list WEdge) (maxcardinality : bool)
    : res (list (Z * Z)) :=
  let nxgraph := map (fun '(i0, i1, weight) => (i0, i1, - weight)) edges in
  Ok (max_weight_matching nxgraph maxcardinality).

Definition match_blossomv `{Services} (edges : list WEdge) (num_nodes : nat)
    : res (list (Z * Z)) :=
  if decide (num_nodes = 0%nat) then Ok []
  else match PMlib with
       | None => Raise FileNotFoundError
       | Some pyMatching =>
           let numEdges := length edges in
           let nodes1 := map (fun e : WEdge => c_int (Z.of_nat e.1.1)) edges in
           let nodes2 := map (fun e : WEdge => c_int (Z.of_nat e.1.2)) edges in
           let weights := map (fun e : WEdge => c_int e.2) edges in
           let matching :=
             pyMatching (c_int (Z.of_nat num_nodes)) (c_int (Z.of_nat numEdges))
                        nodes1 nodes2 weights in
           Ok (omap (fun '(i0, i1) =>
                       if decide (Z.of_nat i0 > i1) then Some (Z.of_nat i0, i1) else None)
                    (enumerate matching))
       end.

Definition matching_graph `{Services} (use_blossomv : bool) (edges : list WEdge)
    (maxcardinality : bool) (num_nodes : nat) : res (list (Z * Z)) :=
  if use_blossomv then match_blossomv edges num_nodes
  else match_networkx edges maxcardinality.

Definition match_syndromes `{Lattice L, Services} (s : Sim L) (syndromes : list Qubit)
    (use_blossomv : bool) : res (list (Z * Z) * Sim L) :=
  let s := log s (BuildGraph syndromes) in
  do edges <- get_qubit_distances syndromes (size (code s));
  let s := log s (Match edges (length syndromes)) in
  do matching <- matching_graph use_blossomv edges (config_max_cardinality s)
                                (length syndromes);
  Ok (matching, s).

Definition _walk_direction (q0 q1 : Qubit) (size : Z * Z) : res (Z * Z * Key * Key) :=
  let '(x0, y0) := loc q0 in
  let '(x1, y1) := loc q1 in
  do dx0 <- py_mod (py_int (x0 - x1)) (fst size);
  do dx1 <- py_mod (py_int (x1 - x0)) (fst size);
  do dy0 <- py_mod (py_int (y0 - y1)) (snd size);
  do dy1 <- py_mod (py_int (y1 - y0)) (snd size);
  let '(dx, xd) := if decide (dx0 < dx1) then (dx0, (1, 0)) else (dx1, (-1, 0)) in
  let '(dy, yd) := if decide (dy0 < dy1) then (dy0, (0, -1)) else (dy1, (0, 1)) in
  Ok (dx, dy, xd, yd).

(** [range(length)] runs the body [length] times; at the first step that
    raises, the bare [except] leaves the loop. *)
Fixpoint walk_steps `{Lattice L} (n : nat) (c : L) (qubit : Qubit) (key : Key)
    : L * Qubit :=
  match n with
  | O => (c, qubit)
  | S n' =>
      match correct_edge c qubit key with
      | Ok (c', qubit') => walk_steps n' c' qubit' key
      | Raise _ => (c, qubit)
      end
  end.

Definition _walk_and_correct `{Lattice L} (c : L) (qubit : Qubit) (length : Z)
    (key : Key) : L * Qubit :=
  walk_steps (Z.to_nat length) c qubit key.

(** [ancillas[aq.loc] if aq.loc in ancillas else pseudos[aq.loc]] *)
Definition decode_layer_qubit `{Lattice L} (c : L) (aq : Qubit) : res Qubit :=
  match ancilla_qubits c !! loc aq with
  | Some dq => Ok dq
  | None =>
      match pseudo_qubits c !! loc aq with
      | Some dq => Ok dq
      | None => Raise KeyError
      end
  end.

(** [_correct_matched_qubits], over the [_walk_direction] of the class of
    [self]. *)
Definition correct_matched_qubits_with `{Lattice L}
    (walk_direction : Qubit → Qubit → Z * Z → res (Z * Z * Key * Key))
    (c : L) (aq0 aq1 : Qubit) : res (Z * L) :=
  do dq0 <- decode_layer_qubit c aq0;
  do dq1 <- decode_layer_qubit c aq1;
  do (dx, dy, xd, yd) <- walk_direction aq0 aq1 (size c);
  let '(c, xv) := _walk_and_correct c dq0 dy yd in
  let '(c, _) := _walk_and_correct c dq1 dx xd in
  Ok (dy + dx + Z.abs (z aq0 - z aq1), c).

Definition _correct_matched_qubits `{Lattice L} (c : L) (aq0 aq1 : Qubit)
    : res (Z * L) :=
  correct_matched_qubits_with _walk_direction c aq0 aq1.

Definition correct_matching `{Lattice L} (s : Sim L) (syndromes : list Qubit)
    (matching : list (Z * Z)) : res (Z * Sim L) :=
  let s := log s (Correct syndromes matching) in
  for_each matching (fun '(i0, i1) '(weight, s) =>
    do aq0 <- py_getitem syndromes i0;
    do aq1 <- py_getitem syndromes i1;
    do (w, c) <- _correct_matched_qubits (code s) aq0 aq1;
    Ok (weight + w, set_code s c)) (0, s).

Definition decode `{Lattice L, Services} (s : Sim L) (use_blossomv : bool)
    : res (Sim L) :=
  let s := log s ExtractSyndromes in
  let '(plaqs, stars) := get_syndrome (code s) in
  do (m, s) <- match_syndromes s plaqs use_blossomv;
  do (_, s) <- correct_matching s plaqs m;
  do (m, s) <- match_syndromes s stars use_blossomv;
  do (_, s) <- correct_matching s stars m;
  Ok s.

End Toric.

(** ** class Planar(Toric) *)

Module Planar.

Definition get_weight (a0 a1 : Qubit) : Z :=
  let '(x0, y0) := loc a0 in
  let z0 := z a0 in
  let '(x1, y1) := loc a1 in
  let z1 := z a1 in
  let wx := py_int (Z.abs (x0 - x1)) in
  let wy := py_int (Z.abs (y0 - y1)) in
  let wz := Z.abs (z0 - z1) in
  wy + wx + wz.

(** The three values [get_qubit_distances] builds: the edge list it returns
    and the two attributes it leaves on [self]. *)
Abbreviation Built := (list WEdge * list string * list (option Qubit))%type.

Definition get_qubit_distances (qubits : list (Qubit * Qubit)) : res Built :=
  let n := length qubits in
  let edges : list WEdge := [] in
  let boundary_info := replicate (2 * n) EmptyString in
  let ancillas_matchingind : list (option Qubit) := replicate (2 * n) None in
  (* edges between all ancilla-qubits *)
  do st1 <-
    for_each (enumerate qubits) (fun '(i0, (a0, _)) '(edges, bi, ami) =>
      do ami <- py_setitem ami i0 (Some a0);
      for_each (enumerate_from (i0 + 1) (drop (i0 + 1) qubits))
        (fun '(i1, (a1, _)) '(edges, bi, ami) =>
          let weight := get_weight a0 a1 in
          let edges := edges ++ [((i0, i1), weight)] in
          do ami <- py_setitem ami i1 (Some a1);
          Ok (edges, bi, ami))
        (edges, bi, ami))
      (edges, boundary_info, ancillas_matchingind);
  (* edges between ancilla-qubits and their boundary pseudo-qubits *)
  do st2 <-
    for_each (enumerate qubits) (fun '(i, (ancilla, pseudo)) '(edges, bi, ami) =>
      let '(xs, ys) := loc ancilla in
      let '(xb, yb) := loc pseudo in
      let weight := if decide (state_type ancilla = "x") then xb - xs else yb - ys in
      let edges := edges ++ [((i, (n + i)%nat), py_int (Z.abs weight))] in
      do bi <- (if decide (xb = 0) then py_setitem bi (n + i) "L"
                else py_setitem bi (n + i) "R");
      do ami <- py_setitem ami (n + i) (Some pseudo);
      Ok (edges, bi, ami))
      st1;
  (* edges of weight 0 between all pseudo-qubits *)
  for_each (seq n (2 * n - n)) (fun i0 '(edges, bi, ami) =>
    for_each (seq (i0 + 1) (2 * n - (i0 + 1))) (fun i1 '(edges, bi, ami) =>
      Ok (edges ++ [((i0, i1), 0)], bi, ami))
      (edges, bi, ami))
    st2.

Definition match_syndromes `{Lattice L, Services} (s : Sim L)
    (syndromes : list (Qubit * Qubit)) (use_blossomv : bool)
    : res (list (Z * Z) * Sim L) :=
  let s := log s (BuildGraph (map fst syndromes)) in
  do (edges, bi, ami) <- get_qubit_distances syndromes;
  let s := set_scratch s edges bi ami in
  let s := log s (Match (self_edges s) (length syndromes)) in
  do matching <- Toric.matching_graph use_blossomv (self_edges s)
                   (config_max_cardinality s) (length syndromes);
  let s := set_matching s matching in
  Ok (self_matching s, s).

Definition _walk_direction (q0 q1 : Qubit) (size : Z * Z) : res (Z * Z * Key * Key) :=
  let '(x0, y0) := loc q0 in
  let '(x1, y1) := loc q1 in
  let dx := py_int (x0 - x1) in
  let dy := py_int (y0 - y1) in
  let xd := if decide (dx > 0) then (1, 0) else (-1, 0) in
  let yd := if decide (dy > 0) then (0, -1) else (0, 1) in
  Ok (Z.abs dx, Z.abs dy, xd, yd).

(** The inherited [_correct_matched_qubits], which reaches the planar
    [_walk_direction] through [self]. *)
Definition _correct_matched_qubits `{Lattice L} (c : L) (aq0 aq1 : Qubit)
    : res (Z * L) :=
  Toric.correct_matched_qubits_with _walk_direction c aq0 aq1.

(** The site a matching index stands for: the real site of tuple [i] below
    [len(syndromes)], the boundary site of tuple [i - len(syndromes)] from
    there on. *)
Definition matched_site (syndromes : list (Qubit * Qubit)) (i : Z) : res Qubit :=
  if decide (i < Z.of_nat (length syndromes))
  then do t <- py_getitem syndromes i; Ok (fst t)
  else do t <- py_getitem syndromes (i - Z.of_nat (length syndromes)); Ok (snd t).

Definition correct_matching `{Lattice L} (s : Sim L)
    (syndromes : list (Qubit * Qubit)) (matching : list (Z * Z))
    : res (Z * Sim L) :=
  let s := log s (Correct (map fst syndromes) matching) in
  for_each matching (fun '(i0, i1) '(weight, s) =>
    if decide (i0 < Z.of_nat (length syndromes) ∨ i1 < Z.of_nat (length syndromes))
    then
      do aq0 <- matched_site syndromes i0;
      do aq1 <- matched_site syndromes i1;
      do (w, c) <- _correct_matched_qubits (code s) aq0 aq1;
      Ok (weight + w, set_code s c)
    else Ok (weight, s)) (0, s).

(** [boundary_nodes.add(q)] on a set kept in insertion order. *)
Definition set_add (l : list Qubit) (q : Qubit) : list Qubit :=
  if decide (q ∈ l) then l else l ++ [q].

Definition py_assert (P : Prop) `{Decision P} : res unit :=
  if decide P then Ok tt else Raise AssertionError.

(** [calc_phi], part 1: the graph of the x-type data-qubit edges and the
    boundary nodes met on the way.  The error rate is read, and the weight
    computed, at each such edge. *)
Definition structure_graph `{Lattice L} (c : L) (edges : list DQEdge)
    : res (Graph * list Qubit) :=
  for_each edges (fun edge '(G, boundary_nodes) =>
    if decide (edge_state_type edge = "x") then
      let boundary_nodes :=
        if decide (qubit_type (nodes edge).1 = "pA")
        then set_add boundary_nodes (nodes edge).1 else boundary_nodes in
      let boundary_nodes :=
        if decide (qubit_type (nodes edge).2 = "pA")
        then set_add boundary_nodes (nodes edge).2 else boundary_nodes in
      do p <- error_rate c;
      do weight <- log_odds_weight p;
      Ok (G ++ [((nodes edge).1, (nodes edge).2, weight)], boundary_nodes)
    else Ok (G, boundary_nodes)) ([], []).

(** [self.ancillas_matchingind[i]] used as a site: a [None] entry has no
    [loc]. *)
Definition matchingind (ami : list (option Qubit)) (i : Z) : res Qubit :=
  do o <- py_getitem ami i;
  match o with
  | Some q => Ok q
  | None => Raise AttributeError
  end.

(** [self.boundary_info[node0] == '' or self.boundary_info[node1] == ''];
    the second index is read only when the first test fails. *)
Definition has_real_endpoint (bi : list string) (node0 node1 : Z) : res bool :=
  do b0 <- py_getitem bi node0;
  if decide (b0 = EmptyString) then Ok true
  else do b1 <- py_getitem bi node1; Ok (bool_decide (b1 = EmptyString)).

(** The zero-weight edges one matched pair adds.  [w < edge_weight/2] on an
    integer [w] and the float half of an integer is [2 * w < edge_weight]. *)
Definition pair_shortcuts (ami : list (option Qubit)) (edges : list DQEdge)
    (node0 node1 : Z) (G : Graph) : res Graph :=
  do q0 <- matchingind ami node0;
  do q1 <- matchingind ami node1;
  let edge_weight := get_weight q0 q1 in
  for_each edges (fun dq_edge G =>
    for_each [node0; node1] (fun a G =>
      for_each [(nodes dq_edge).1; (nodes dq_edge).2] (fun b G =>
        do qa <- matchingind ami a;
        if decide (2 * get_weight qa b < edge_weight)
        then Ok (G ++ [(qa, b, w_zero)])
        else Ok G) G) G) G.

Definition shortcuts (bi : list string) (ami : list (option Qubit))
    (edges : list DQEdge) (matching : list (Z * Z)) (G : Graph) : res Graph :=
  for_each matching (fun '(node0, node1) G =>
    do real <- has_real_endpoint bi node0 node1;
    if real then pair_shortcuts ami edges node0 node1 G else Ok G) G.

(** Boundary nodes of the same side are joined by zero-weight edges. *)
Definition connect_sides (size : Z * Z) (boundary_nodes : list Qubit) (G : Graph)
    : res Graph :=
  for_each boundary_nodes (fun elem1 G =>
    for_each boundary_nodes (fun elem2 G =>
      if decide (elem1 ≠ elem2) then
        let x1 := (loc elem1).1 in
        let x2 := (loc elem2).1 in
        if decide ((x1 = 0 ∧ x2 = 0) ∨ (x1 ≠ 0 ∧ x2 ≠ 0)) then
          let G := G ++ [(elem1, elem2, w_zero)] in
          do _ <- (if decide (x1 ≠ 0 ∧ x2 ≠ 0)
                   then py_assert (x1 = 2 * size.1 ∧ x2 = 2 * size.1)
                   else Ok tt);
          do _ <- py_assert (x1 = x2);
          Ok G
        else Ok G
      else Ok G) G) G.

(** The source [s] and target [t] of the shortest path: unbound until a
    boundary node assigns them. *)
Definition select_hubs (boundary_nodes : list Qubit) : option Qubit * option Qubit :=
  foldl (fun '(s, t) elem =>
    if decide ((loc elem).1 = 0 ∧ (loc elem).2 = 0) then (Some elem, t)
    else if decide ((loc elem).2 = 0) then (s, Some elem)
    else (s, t)) (None, None) boundary_nodes.

Definition calc_phi `{Lattice L, Services} (s : Sim L) : res (PathLength * Sim L) :=
  let s := log s EstimateFailure in
  let edges := data_qubit_edges_x (code s) in
  do (G, boundary_nodes) <- structure_graph (code s) edges;
  do G <- shortcuts (boundary_info s) (ancillas_matchingind s) edges
                    (self_matching s) G;
  do G <- connect_sides (size (code s)) (set_iter boundary_nodes) G;
  match select_hubs (set_iter boundary_nodes) with
  | (Some s0, Some t0) =>
      do length <- single_source_dijkstra G s0 t0;
      Ok (length, s)
  | _ => Raise UnboundLocalError
  end.

Definition decode `{Lattice L, Services} (s : Sim L) (use_blossomv : bool)
    : res (PathLength * Sim L) :=
  let s := log s ExtractSyndromes in
  let '(plaqs, stars) := get_syndrome_pseudo (code s) in
  do (m, s) <- match_syndromes s plaqs use_blossomv;
  do (weight, s) <- correct_matching s plaqs m;
  do p <- error_rate (code s);
  calc_phi s.

End Planar.

(** ** A concrete lattice and concrete services

    One row of a distance-5 planar code: x-type ancillas at x = 1..4 on
    y = 0, their boundary sites at x = 0 and x = 5, and the five data-qubit
    edges between neighbours.  With [demo_wrap] the row closes into a ring. *)

Record DemoCode : Type := mkDemo {
  demo_size : Z * Z;
  demo_wrap : bool;
  demo_ancillas : list Qubit;
  demo_pseudos : list Qubit;
  demo_flipped : list (Z * Z);          (* data qubits corrected so far *)
  demo_syndrome : list Qubit * list Qubit;
  demo_syndrome_pseudo : list (Qubit * Qubit) * list (Qubit * Qubit);
  demo_edges : list DQEdge;
}.

Definition demo_step (c : DemoCode) (l : Z * Z) (key : Key) (k : Z) : Z * Z :=
  let x := l.1 + k * key.1 in
  let y := l.2 + k * key.2 in
  if demo_wrap c then (x mod (2 * (demo_size c).1), y mod (2 * (demo_size c).2))
  else (x, y).

Definition demo_correct_edge (c : DemoCode) (q : Qubit) (key : Key)
    : res (DemoCode * Qubit) :=
  match list_find (fun q' => loc q' = demo_step c (loc q) key 2)
                  (demo_ancillas c ++ demo_pseudos c) with
  | Some (_, q') =>
      Ok (mkDemo (demo_size c) (demo_wrap c) (demo_ancillas c) (demo_pseudos c)
                 (demo_flipped c ++ [demo_step c (loc q) key 1])
                 (demo_syndrome c) (demo_syndrome_pseudo c) (demo_edges c), q')
  | None => Raise KeyError
  end.

Definition by_loc (l : list Qubit) : gmap (Z * Z) Qubit :=
  list_to_map (map (fun q => (loc q, q)) l).

Global Instance demo_lattice : Lattice DemoCode := {
  size := demo_size;
  ancilla_qubits c := by_loc (demo_ancillas c);
  pseudo_qubits c := by_loc (demo_pseudos c);
  correct_edge := demo_correct_edge;
  get_syndrome := demo_syndrome;
  get_syndrome_pseudo := demo_syndrome_pseudo;
  data_qubit_edges_x := demo_edges;
  p_bitflip := fun _ => Some (1 # 10)%Q;
}.

Definition site (x : Z) : Qubit := mkQubit (2 * x, 0) 0 "x" "A".
Definition bsite (x : Z) : Qubit := mkQubit (2 * x, 0) 0 "x" "pA".
Definition zsite (x2 y2 : Z) : Qubit := mkQubit (x2, y2) 0 "z" "A".
Definition zbsite (x2 y2 : Z) : Qubit := mkQubit (x2, y2) 0 "z" "pA".

Definition demo_row_edges : list DQEdge :=
  [mkDQEdge "x" (bsite 0, site 1); mkDQEdge "x" (site 1, site 2);
   mkDQEdge "x" (site 2, site 3); mkDQEdge "x" (site 3, site 4);
   mkDQEdge "x" (site 4, bsite 5)].

(** The planar row with a syndrome at x = 1, paired with the boundary at
    x = 0, and a star syndrome next to the lower edge. *)
Definition demo_planar : DemoCode :=
  mkDemo (5, 1) false [site 1; site 2; site 3; site 4] [bsite 0; bsite 5] []
         ([site 1], [zsite 3 1])
         ([(site 1, bsite 0)], [(zsite 3 1, zbsite 3 (-1))])
         demo_row_edges.

(** A ring of six x-type ancillas with plaquette syndromes at x = 0 and
    x = 3, and two z-type ancillas at (0.5, 0.5) and (1.5, 0.5), both star
    syndromes. *)
Definition demo_toric : DemoCode :=
  mkDemo (6, 1) true
         [site 0; site 1; site 2; site 3; site 4; site 5; zsite 1 1; zsite 3 1] [] []
         ([site 0; site 3], [zsite 1 1; zsite 3 1]) ([], []) [].

(** The shortest-path service on a graph whose edges weigh 0 or one unit
    [-np.log(p / (1 - p))]: the path length is counted in units.  This is
    Bellman-Ford on the edges in force, the last [add_edge] of a pair of
    nodes deciding its weight. *)
Definition units (w : GWeight) : nat :=
  match w with w_log_odds _ => 1%nat | w_zero => 0%nat end.

Definition same_pair (e e' : Qubit * Qubit * GWeight) : bool :=
  bool_decide ((e.1.1 = e'.1.1 ∧ e.1.2 = e'.1.2) ∨ (e.1.1 = e'.1.2 ∧ e.1.2 = e'.1.1)).

Fixpoint in_force (G : Graph) : Graph :=
  match G with
  | [] => []
  | e :: G' => if existsb (same_pair e) G' then in_force G' else e :: in_force G'
  end.

Definition dist_of (d : list (Qubit * nat)) (q : Qubit) : option nat :=
  match list_find (fun p : Qubit * nat => p.1 = q) d with
  | Some (_, (_, n)) => Some n
  | None => None
  end.

Definition relax (d : list (Qubit * nat)) (u v : Qubit) (w : nat)
    : list (Qubit * nat) :=
  match dist_of d u with
  | None => d
  | Some du =>
      match dist_of d v with
      | Some dv => if decide (du + w < dv)%nat then (v, (du + w)%nat) :: d else d
      | None => (v, (du + w)%nat) :: d
      end
  end.

Definition relax_all (G : Graph) (d : list (Qubit * nat)) : list (Qubit * nat) :=
  foldl (fun d e => relax (relax d e.1.1 e.1.2 (units e.2)) e.1.2 e.1.1 (units e.2)) d G.

Definition demo_dijkstra (G : Graph) (s t : Qubit) : res nat :=
  let G := in_force G in
  if bool_decide (Exists (fun e => e.1.1 = s ∨ e.1.2 = s) G) then
    match dist_of (Nat.iter (S (length G)) (relax_all G) [(s, 0%nat)]) t with
    | Some n => Ok n
    | None => Raise NetworkXNoPath
    end
  else Raise NodeNotFound.

(** The matching of a graph with one edge pairs its two end nodes. *)
Definition demo_matching (edges : list WEdge) (maxcardinality : bool) : list (Z * Z) :=
  match edges with
  | [((i0, i1), _)] => [(Z.of_nat i0, Z.of_nat i1)]
  | _ => []
  end.

(** Services without the Blossom V library. *)
Global Instance demo_services : Services := {
  max_weight_matching := demo_matching;
  PMlib := None;
  PathLength := nat;
  single_source_dijkstra := demo_dijkstra;
  set_iter l := l;
}.

Definition demo_sim (c : DemoCode) : Sim DemoCode := mkSim c true [] [] [] [] [].


(** ** Specification-side definitions *)

(** The wrapped distance on an axis of period [P]. *)
Definition wrapped (d P : Z) : Z := Z.min (d mod P) (P - d mod P).

(** The toric weight between two sites: wrapped x + wrapped y + layer
    difference, on the truncated coordinate differences. *)
Definition toric_distance (P : Z * Z) (qa qb : Qubit) : Z :=
  wrapped (py_int ((loc qa).1 - (loc qb).1)) P.1
  + wrapped (py_int ((loc qa).2 - (loc qb).2)) P.2
  + Z.abs (z qa - z qb).

(** All pairs [i < j] of a list whose first element has index [k], in the
    order the nested loops visit them, each with its weight. *)
Fixpoint pairs_from {A : Type} (w : A → A → Z) (k : nat) (l : list A) : list WEdge :=
  match l with
  | [] => []
  | q :: r => imap (fun j q1 => ((k, (k + 1 + j)%nat), w q q1)) r ++ pairs_from w (S k) r
  end.

(** The weight of the edge from a real site to its boundary partner. *)
Definition boundary_weight (ancilla pseudo : Qubit) : Z :=
  py_int (Z.abs (if decide (state_type ancilla = "x")
                 then (loc pseudo).1 - (loc ancilla).1
                 else (loc pseudo).2 - (loc ancilla).2)).

(** The side recorded for a boundary site. *)
Definition boundary_tag (pseudo : Qubit) : string :=
  if decide ((loc pseudo).1 = 0) then "L" else "R".

(** The values the planar builder ends with, for a list of
    (real site, boundary site) tuples. *)
Definition planar_edges (qubits : list (Qubit * Qubit)) : list WEdge :=
  pairs_from Planar.get_weight 0 (map fst qubits)
  ++ imap (fun i t => ((i, (length qubits + i)%nat), boundary_weight t.1 t.2)) qubits
  ++ pairs_from (fun _ _ : Qubit => 0) (length qubits) (map snd qubits).

Definition planar_boundary_info (qubits : list (Qubit * Qubit)) : list string :=
  replicate (length qubits) EmptyString ++ map (fun t => boundary_tag t.2) qubits.

Definition planar_matchingind (qubits : list (Qubit * Qubit)) : list (option Qubit) :=
  map (fun t => Some t.1) qubits ++ map (fun t => Some t.2) qubits.

(** The boundary-side rule in the words of the specification: a node is
    tagged left exactly when its boundary coordinate is the minimum extent
    [lo] and right exactly when it is the maximum extent [hi]. *)
Definition tag_by_extent (lo hi coord : Z) (tag : option string) : Prop :=
  (tag = Some "L" ↔ coord = lo) ∧ (tag = Some "R" ↔ coord = hi).

(** The number of edges a walk of at most [n] steps really flips: the steps
    before the first one that raises. *)
Fixpoint steps_taken `{Lattice L} (n : nat) (c : L) (qubit : Qubit) (key : Key) : nat :=
  match n with
  | O => O
  | S n' =>
      match correct_edge c qubit key with
      | Ok (c', qubit') => S (steps_taken n' c' qubit' key)
      | Raise _ => O
      end
  end.

(** The two wrapped distances between the coordinates [c0] of the first
    site and [c1] of the second on an axis of period [P]: forward, from [c0]
    up to [c1], and backward, from [c0] down to [c1]. *)
Definition forward (c0 c1 P : Z) : Z := py_int (c1 - c0) mod P.
Definition backward (c0 c1 P : Z) : Z := py_int (c0 - c1) mod P.

(** A lattice with a hole: the sites at x = 1 and x = 3 of a row, the site
    between them missing. *)
Definition demo_hole : DemoCode :=
  mkDemo (5, 1) false [site 1; site 3] [] [] ([site 1; site 3], []) ([], []) [].

(** What a correction leaves behind: the weight and the lattice. *)
Definition outcome {L : Type} (r : res (Z * Sim L)) : res (Z * L) :=
  match r with
  | Ok (w, s) => Ok (w, code s)
  | Raise e => Raise e
  end.

(** The loops of [correct_matching], on the weight and the lattice alone. *)
Definition toric_correct_pairs `{Lattice L} (syndromes : list Qubit)
    (matching : list (Z * Z)) (st : Z * L) : res (Z * L) :=
  for_each matching (fun '(i0, i1) '(weight, c) =>
    do aq0 <- py_getitem syndromes i0;
    do aq1 <- py_getitem syndromes i1;
    do (w, c) <- Toric._correct_matched_qubits c aq0 aq1;
    Ok (weight + w, c)) st.

Definition planar_correct_pairs `{Lattice L} (syndromes : list (Qubit * Qubit))
    (matching : list (Z * Z)) (st : Z * L) : res (Z * L) :=
  for_each matching (fun '(i0, i1) '(weight, c) =>
    if decide (i0 < Z.of_nat (length syndromes) ∨ i1 < Z.of_nat (length syndromes))
    then
      do aq0 <- Planar.matched_site syndromes i0;
      do aq1 <- Planar.matched_site syndromes i1;
      do (w, c) <- Planar._correct_matched_qubits c aq0 aq1;
      Ok (weight + w, c)
    else Ok (weight, c)) st.

(** The zero-weight edges a matched pair of sites [q0], [q1] opens: from
    each of the two to every end node of a data-qubit edge that is closer
    to it than half the distance between [q0] and [q1]. *)
Definition shortcut_edges (q0 q1 : Qubit) (edges : list DQEdge) : Graph :=
  concat (map (fun dq_edge =>
    concat (map (fun qa =>
      concat (map (fun b =>
        if decide (2 * Planar.get_weight qa b < Planar.get_weight q0 q1)
        then [(qa, b, w_zero)] else [])
        [(nodes dq_edge).1; (nodes dq_edge).2]))
      [q0; q1]))
    edges).

(** The two kinds of hub of the failure estimator. *)
Definition is_origin (q : Qubit) : Prop := (loc q).1 = 0 ∧ (loc q).2 = 0.
Definition is_opposite (q : Qubit) : Prop := ¬ is_origin q ∧ (loc q).2 = 0.

Global Instance is_origin_dec (q : Qubit) : Decision (is_origin q).
Proof. unfold is_origin. apply _. Defined.
Global Instance is_opposite_dec (q : Qubit) : Decision (is_opposite q).
Proof. unfold is_opposite. apply _. Defined.

(** A row of a distance-[d] planar code on layer [k]. *)
Definition lsite (x k : Z) : Qubit := mkQubit (2 * x, 0) k "x" "A".
Definition lbsite (x k : Z) : Qubit := mkQubit (2 * x, 0) k "x" "pA".

Definition row_sites (d : nat) (k : Z) : list Qubit :=
  map (fun i => lsite (Z.of_nat i) k) (seq 1 (d - 1)).

Definition row_edges (d : nat) (k : Z) : list DQEdge :=
  let row := lbsite 0 k :: row_sites d k ++ [lbsite (Z.of_nat d) k] in
  map (fun ends => mkDQEdge "x" ends) (zip row (tail row)).

(** Two layers of the distance-5 row, as with faulty measurements: both
    layers have a boundary site at (0, 0) and one at (5, 0).  The syndrome
    sits at x = 1 on the decode layer 0. *)
Definition demo_layers : DemoCode :=
  mkDemo (5, 1) false (row_sites 5 0) [lbsite 0 0; lbsite 5 0] []
         ([lsite 1 0], []) ([(lsite 1 0, lbsite 0 0)], [])
         (row_edges 5 0 ++ row_edges 5 1).

(** The distance-10 row with syndromes at x = 4 and x = 7. *)
Definition demo_wide : DemoCode :=
  mkDemo (10, 1) false (row_sites 10 0) [lbsite 0 0; lbsite 10 0] []
         ([lsite 4 0; lsite 7 0], [])
         ([(lsite 4 0, lbsite 0 0); (lsite 7 0, lbsite 10 0)], [])
         (row_edges 10 0).

(** The steps of one pass on the syndromes [sites], as consecutive calls. *)
Definition performs (sites : list Qubit) (cs : list Call) : Prop :=
  ∃ pre post edges matching,
    cs = pre ++ [BuildGraph sites; Match edges (length sites); Correct sites matching]
            ++ post.

(** The weight one matched pair adds to the total of the planar
    [correct_matching]. *)
Definition planar_pair_weight (syndromes : list (Qubit * Qubit)) (p : Z * Z) : Z :=
  if decide (p.1 < Z.of_nat (length syndromes) ∨ p.2 < Z.of_nat (length syndromes))
  then match Planar.matched_site syndromes p.1, Planar.matched_site syndromes p.2 with
       | Ok aq0, Ok aq1 => Planar.get_weight aq0 aq1
       | _, _ => 0
       end
  else 0.

(** The arrays [match_blossomv] hands to [pyMatching], and the partner
    array it gets back. *)
Definition blossomv_partners
    (pyMatching : Z → Z → list Z → list Z → list Z → list Z)
    (edges : list WEdge) (num_nodes : nat) : list Z :=
  pyMatching (c_int (Z.of_nat num_nodes)) (c_int (Z.of_nat (length edges)))
             (map (fun e : WEdge => c_int (Z.of_nat e.1.1)) edges)
             (map (fun e : WEdge => c_int (Z.of_nat e.1.2)) edges)
             (map (fun e : WEdge => c_int e.2) edges).

(** A Blossom V library that pairs node 0 with node 1 and node 2 with
    node 3, and services that have it. *)
Definition demo_pyMatching (num_nodes numEdges : Z) (nodes1 nodes2 weights : list Z)
    : list Z :=
  take (Z.to_nat num_nodes) [1; 0; 3; 2].

Definition demo_blossom : Services := {|
  max_weight_matching := demo_matching;
  PMlib := Some demo_pyMatching;
  PathLength := nat;
  single_source_dijkstra := demo_dijkstra;
  set_iter := fun l => l;
|}.

(** Two boundary nodes are on the same side when both or neither have
    x = 0. *)
Definition same_side (e1 e2 : Qubit) : Prop :=
  ((loc e1).1 = 0 ∧ (loc e2).1 = 0) ∨ ((loc e1).1 ≠ 0 ∧ (loc e2).1 ≠ 0).

Global Instance same_side_dec (e1 e2 : Qubit) : Decision (same_side e1 e2).
Proof. unfold same_side. apply _. Defined.

(** The zero-weight edges that join the boundary nodes of each side. *)
Definition side_edges (boundary_nodes : list Qubit) : Graph :=
  concat (map (fun elem1 =>
    concat (map (fun elem2 =>
      if decide (elem1 ≠ elem2 ∧ same_side elem1 elem2)
      then [(elem1, elem2, w_zero)] else [])
      boundary_nodes))
    boundary_nodes).

(** What the assertions of [calc_phi] ask of two boundary nodes: when they
    are distinct and both off x = 0, both are at x = size. *)
Definition side_ok (size : Z * Z) (elem1 elem2 : Qubit) : Prop :=
  elem1 ≠ elem2 → (loc elem1).1 ≠ 0 ∧ (loc elem2).1 ≠ 0 →
  (loc elem1).1 = 2 * size.1 ∧ (loc elem2).1 = 2 * size.1.

Global Instance side_ok_dec (size : Z * Z) (e1 e2 : Qubit) : Decision (side_ok size e1 e2).
Proof. unfold side_ok. apply _. Defined.

Definition sides_consistent (size : Z * Z) (boundary_nodes : list Qubit) : Prop :=
  Forall (fun elem1 => Forall (side_ok size elem1) boundary_nodes) boundary_nodes.

Global Instance sides_consistent_dec (size : Z * Z) (bn : list Qubit)
  : Decision (sides_consistent size bn).
Proof. unfold sides_consistent. apply _. Defined.

(** The distance-5 row at rest: no syndrome at all. *)
Definition demo_quiet : DemoCode :=
  mkDemo (5, 1) false (row_sites 5 0) [lbsite 0 0; lbsite 5 0] []
         ([], []) ([], []) (row_edges 5 0).

(** The data-qubit edges of state type x, in order. *)
Definition x_edges (edges : list DQEdge) : list DQEdge :=
  filter (fun e => edge_state_type e = "x") edges.

(** One full-weight graph edge for each of them, at the error rate [p]. *)
Definition x_graph (p : Q) (edges : list DQEdge) : Graph :=
  map (fun e => ((nodes e).1, (nodes e).2, w_log_odds p)) (x_edges edges).

(** The end nodes of a data-qubit edge that are boundary sites. *)
Definition boundary_ends (e : DQEdge) : list Qubit :=
  filter (fun q => qubit_type q = "pA") [(nodes e).1; (nodes e).2].

(** The boundary end nodes of the x edges, each once, in the order in which
    they are first met. *)
Definition boundary_nodes_of (edges : list DQEdge) : list Qubit :=
  foldl Planar.set_add [] (concat (map boundary_ends (x_edges edges))).

(** The demonstration lattice with another error rate, or none. *)
Definition demo_lattice_at (p : option Q) : Lattice DemoCode := {|
  size := demo_size;
  ancilla_qubits := fun c => by_loc (demo_ancillas c);
  pseudo_qubits := fun c => by_loc (demo_pseudos c);
  correct_edge := demo_correct_edge;
  get_syndrome := demo_syndrome;
  get_syndrome_pseudo := demo_syndrome_pseudo;
  data_qubit_edges_x := demo_edges;
  p_bitflip := fun _ => p;
|}.

(** The two layers of the distance-5 row on a lattice that declares size 4. *)
Definition demo_short : DemoCode :=
  mkDemo (4, 1) false (row_sites 5 0) [lbsite 0 0; lbsite 5 0] []
         ([lsite 1 0], []) ([(lsite 1 0, lbsite 0 0)], [])
         (row_edges 5 0 ++ row_edges 5 1).

(** The distance-5 row with its middle edges missing: the two boundary
    sites are not connected. *)
Definition demo_cut : DemoCode :=
  mkDemo (5, 1) false (row_sites 5 0) [lbsite 0 0; lbsite 5 0] []
         ([], []) ([], [])
         [mkDQEdge "x" (lbsite 0 0, lsite 1 0); mkDQEdge "x" (lsite 4 0, lbsite 5 0)].

(** * Properties *)

(** ** Loops *)

Lemma for_each_app {A S : Type} (xs ys : list A) (body : A → S → res S) (s : S) :
  for_each (xs ++ ys) body s = bind (for_each xs body s) (for_each ys body).
Proof.
  revert s; induction xs as [|x xs IH]; intros s; simpl; [done|].
  destruct (body x s); simpl; auto.
Qed.

Lemma for_each_append {A B : Type} (f : A → list B) (xs : list A)
    (body : A → list B → res (list B)) (s : list B) :
  (∀ x s, x ∈ xs → body x s = Ok (s ++ f x)) →
  for_each xs body s = Ok (s ++ concat (map f xs)).
Proof.
  revert s; induction xs as [|x xs IH]; intros s Hb; simpl.
  - by rewrite app_nil_r.
  - rewrite Hb by left. rewrite IH.
    + by rewrite <- app_assoc.
    + intros; apply Hb. by right.
Qed.

Lemma enumerate_from_cons {A : Type} (k : nat) (a : A) (l : list A) :
  enumerate_from k (a :: l) = (k, a) :: enumerate_from (S k) l.
Proof.
  unfold enumerate_from. simpl. rewrite Nat.add_0_r. f_equal.
  apply imap_ext. intros; simpl. f_equal. lia.
Qed.

Lemma elem_of_enumerate_from {A : Type} (k i : nat) (a : A) (l : list A) :
  (i, a) ∈ enumerate_from k l ↔ ∃ j, i = (k + j)%nat ∧ l !! j = Some a.
Proof.
  unfold enumerate_from. rewrite elem_of_lookup_imap. split.
  - intros (j & y & Heq & Hl). inversion Heq; subst. eauto.
  - intros (j & -> & Hl). eauto.
Qed.

(** ** Pairs of a list *)

Lemma length_pairs_from {A : Type} (w : A → A → Z) (k : nat) (l : list A) :
  (length (pairs_from w k l) * 2 = length l * (length l - 1))%nat.
Proof.
  revert k; induction l as [|q r IH]; intros k; simpl; [done|].
  rewrite length_app, length_imap. specialize (IH (S k)).
  destruct (length r) as [|n]; simpl in *; lia.
Qed.

Lemma elem_of_pairs_from {A : Type} (w : A → A → Z) (k : nat) (l : list A)
    (i j : nat) (x : Z) :
  ((i, j), x) ∈ pairs_from w k l ↔
  ∃ a b qa qb, i = (k + a)%nat ∧ j = (k + b)%nat ∧ (a < b)%nat
               ∧ l !! a = Some qa ∧ l !! b = Some qb ∧ x = w qa qb.
Proof.
  revert k; induction l as [|q r IH]; intros k; simpl.
  - split; [by intros ?%elem_of_nil|]. intros (a & b & qa & qb & _ & _ & _ & H & _).
    by rewrite lookup_nil in H.
  - rewrite elem_of_app, elem_of_lookup_imap, IH. split.
    + intros [(b & qb & Heq & Hb)|(a & b & qa & qb & -> & -> & Hlt & Ha & Hb & ->)].
      * inversion Heq; subst. exists 0%nat, (S b), q, qb. simpl.
        repeat split; try done; lia.
      * exists (S a), (S b), qa, qb. simpl. repeat split; try done; lia.
    + intros (a & b & qa & qb & -> & -> & Hlt & Ha & Hb & ->).
      destruct a as [|a]; simpl in Ha.
      * inversion Ha; subst. destruct b as [|b]; [lia|]. simpl in Hb.
        left. exists b, qb. split; [|done].
        replace (k + 0)%nat with k by lia.
        replace (k + S b)%nat with (k + 1 + b)%nat by lia. done.
      * destruct b as [|b]; [lia|]. simpl in Hb.
        right. exists a, b, qa, qb. repeat split; try done; lia.
Qed.

Lemma NoDup_pairs_from {A : Type} (w : A → A → Z) (k : nat) (l : list A) :
  NoDup (pairs_from w k l).*1.
Proof.
  revert k; induction l as [|q r IH]; intros k; simpl; [constructor|].
  rewrite fmap_app. apply NoDup_app. split; [|split; [|apply IH]].
  - rewrite fmap_imap. apply NoDup_alt. intros a b p Ha Hb.
    rewrite list_lookup_imap in Ha, Hb.
    destruct (r !! a) eqn:Ea; [|done]. destruct (r !! b) eqn:Eb; [|done].
    simpl in *. inversion Ha; subst. inversion Hb. lia.
  - intros [i j] Hin1 Hin2.
    apply list_elem_of_fmap in Hin1 as ([[i1 j1] x1] & Heq1 & Hin1).
    apply list_elem_of_fmap in Hin2 as ([[i2 j2] x2] & Heq2 & Hin2).
    simpl in *. inversion Heq1; inversion Heq2; subst.
    apply elem_of_lookup_imap in Hin1 as (b & qb & Heq & _).
    apply elem_of_pairs_from in Hin2 as (a & ? & ? & ? & Hi & _).
    inversion Heq. lia.
Qed.

(** ** Toric distance graph *)

Lemma toric_pair_weight_ok (Px Py : Z) (q0 q1 : Qubit) :
  Px ≠ 0 → Py ≠ 0 →
  Toric.pair_weight (Px, Py) q0 q1 = Ok (toric_distance (Px, Py) q0 q1).
Proof.
  intros Hx Hy. unfold Toric.pair_weight, toric_distance, wrapped, py_mod.
  destruct (loc q0) as [x0 y0], (loc q1) as [x1 y1]. simpl.
  rewrite !decide_False by done. simpl. f_equal. lia.
Qed.

Lemma toric_inner_loop (Px Py : Z) (i0 : nat) (q0 : Qubit) (l : list Qubit)
    (k : nat) (edges : list WEdge) :
  Px ≠ 0 → Py ≠ 0 →
  for_each (enumerate_from k l) (fun '(i1, q1) edges =>
      do weight <- Toric.pair_weight (Px, Py) q0 q1;
      Ok (edges ++ [((i0, (i1 + i0 + 1)%nat), weight)])) edges
  = Ok (edges ++ imap (fun j q1 => ((i0, (i0 + 1 + (k + j))%nat),
                                     toric_distance (Px, Py) q0 q1)) l).
Proof.
  intros Hx Hy. revert k edges. induction l as [|q1 l IH]; intros k edges.
  - simpl. by rewrite app_nil_r.
  - rewrite enumerate_from_cons. simpl.
    rewrite toric_pair_weight_ok by done. simpl. rewrite IH.
    rewrite <- app_assoc. simpl. do 3 f_equal.
    + do 2 f_equal. lia.
    + apply imap_ext. intros j x _. simpl. do 2 f_equal. lia.
Qed.

Lemma removelast_cons_cons {A : Type} (a b : A) (l : list A) :
  removelast (a :: b :: l) = a :: removelast (b :: l).
Proof. done. Qed.

Lemma toric_outer_loop (Px Py : Z) (pre suf : list Qubit) (edges : list WEdge) :
  Px ≠ 0 → Py ≠ 0 →
  for_each (enumerate_from (length pre) (removelast suf)) (fun '(i0, q0) edges =>
    for_each (enumerate (drop (i0 + 1) (pre ++ suf))) (fun '(i1, q1) edges =>
      do weight <- Toric.pair_weight (Px, Py) q0 q1;
      Ok (edges ++ [((i0, (i1 + i0 + 1)%nat), weight)])) edges) edges
  = Ok (edges ++ pairs_from (toric_distance (Px, Py)) (length pre) suf).
Proof.
  intros Hx Hy. revert pre edges. induction suf as [|q r IH]; intros pre edges.
  - simpl. by rewrite app_nil_r.
  - destruct r as [|q' r].
    + simpl. by rewrite app_nil_r.
    + rewrite removelast_cons_cons, enumerate_from_cons.
      cbn [for_each]. unfold enumerate at 1.
      rewrite toric_inner_loop by done.
      rewrite drop_app_add. cbn [drop].
      assert (Hlen : S (length pre) = length (pre ++ [q]))
        by (rewrite length_app; simpl; lia).
      rewrite (cons_middle q pre (q' :: r)), app_assoc, Hlen, IH, <- Hlen.
      cbn [pairs_from]. by rewrite <- app_assoc.
Qed.

Lemma toric_get_qubit_distances_eq (qubits : list Qubit) (Px Py : Z) :
  Px ≠ 0 → Py ≠ 0 →
  Toric.get_qubit_distances qubits (Px, Py)
  = Ok (pairs_from (toric_distance (Px, Py)) 0 qubits).
Proof.
  intros Hx Hy. exact (toric_outer_loop Px Py [] qubits [] Hx Hy).
Qed.

Lemma half_of_twice (n m : nat) : (m * 2 = n * (n - 1))%nat → m = (n * (n - 1) / 2)%nat.
Proof. intros <-. by rewrite Nat.div_mul. Qed.

(** C2. For nonzero periods [Px], [Py], the toric distance-graph builder
    returns [n (n - 1) / 2] edges for [n] sites, exactly one for each pair
    of positions [i < j], whose weight is the wrapped x distance plus the
    wrapped y distance plus the absolute layer difference of the two sites. *)
Theorem toric_distance_graph_complete (qubits : list Qubit) (Px Py : Z) :
  Px ≠ 0 → Py ≠ 0 →
  ∃ edges : list WEdge,
    Toric.get_qubit_distances qubits (Px, Py) = Ok edges
    ∧ length edges = (length qubits * (length qubits - 1) / 2)%nat
    ∧ NoDup edges.*1
    ∧ ∀ (i j : nat) (w : Z),
        ((i, j), w) ∈ edges ↔
        (i < j)%nat ∧ ∃ qa qb, qubits !! i = Some qa ∧ qubits !! j = Some qb
          ∧ w = Z.min (py_int ((loc qa).1 - (loc qb).1) mod Px)
                      (Px - py_int ((loc qa).1 - (loc qb).1) mod Px)
                + Z.min (py_int ((loc qa).2 - (loc qb).2) mod Py)
                        (Py - py_int ((loc qa).2 - (loc qb).2) mod Py)
                + Z.abs (z qa - z qb).
Proof.
  intros Hx Hy. eexists. split; [by apply toric_get_qubit_distances_eq|].
  split; [apply half_of_twice, length_pairs_from|].
  split; [apply NoDup_pairs_from|].
  intros i j w. rewrite elem_of_pairs_from. split.
  - intros (a & b & qa & qb & -> & -> & Hlt & Ha & Hb & ->). simpl.
    split; [done|]. by exists qa, qb.
  - intros (Hlt & qa & qb & Ha & Hb & ->). by exists i, j, qa, qb.
Qed.

(** The scenario of C2: sites (0,0,0) and (3,0,0) on a (6,6) lattice. *)
Lemma toric_distance_graph_complete_witness :
  (6 ≠ 0 ∧ 6 ≠ 0)
  ∧ ∃ edges : list WEdge,
      Toric.get_qubit_distances
        [mkQubit (0, 0) 0 "x" "A"; mkQubit (6, 0) 0 "x" "A"] (6, 6) = Ok edges
      ∧ ((0%nat, 1%nat), 3) ∈ edges.
Proof.
  split; [split; lia|].
  destruct (toric_distance_graph_complete
              [mkQubit (0, 0) 0 "x" "A"; mkQubit (6, 0) 0 "x" "A"] 6 6)
    as (edges & Heq & _ & _ & Hin); [lia|lia|].
  exists edges. split; [exact Heq|]. apply Hin. split; [lia|].
  eexists _, _. split; [reflexivity|]. split; [reflexivity|]. reflexivity.
Defined.

(** ** Loop invariants *)

Lemma for_each_inv {A S : Type} (I : list A → S → Prop) (xs : list A)
    (body : A → S → res S) (s : S) :
  I [] s →
  (∀ pre x suf s, xs = pre ++ x :: suf → I pre s →
     ∃ s', body x s = Ok s' ∧ I (pre ++ [x]) s') →
  ∃ s', for_each xs body s = Ok s' ∧ I xs s'.
Proof.
  revert I s. induction xs as [|x xs IH]; intros I s H0 Hstep.
  - exists s. by split.
  - destruct (Hstep [] x xs s eq_refl H0) as (s1 & Hb & H1). simpl. rewrite Hb.
    apply (IH (fun pre => I (x :: pre))); [done|].
    intros pre y suf s2 -> H2. apply (Hstep (x :: pre) y suf); [done|done].
Qed.

(** A list under construction: [l] has the length of its final value [T] and
    already agrees with it on the positions in [P]. *)
Definition known {A : Type} (T l : list A) (P : nat → Prop) : Prop :=
  length l = length T ∧ ∀ j, P j → l !! j = T !! j.

Lemma known_setitem {A : Type} (T l : list A) (P : nat → Prop) (i : nat) (v : A) :
  known T l P → T !! i = Some v →
  py_setitem l i v = Ok (<[i := v]> l) ∧ known T (<[i := v]> l) (fun j => P j ∨ j = i).
Proof.
  intros [Hlen HP] Hi. pose proof (lookup_lt_Some _ _ _ Hi) as Hlt.
  unfold py_setitem. rewrite decide_True by lia. split; [done|]. split.
  - by rewrite length_insert.
  - intros j [Hj| ->].
    + destruct (decide (i = j)) as [->|Hne].
      * rewrite list_lookup_insert_eq by lia. done.
      * rewrite list_lookup_insert_ne by done. auto.
    + rewrite list_lookup_insert_eq by lia. done.
Qed.

Lemma known_weaken {A : Type} (T l : list A) (P Q : nat → Prop) :
  known T l P → (∀ j, Q j → P j) → known T l Q.
Proof. intros [Hlen HP] HQ. split; auto. Qed.

Lemma known_all {A : Type} (T l : list A) (P : nat → Prop) :
  known T l P → (∀ j, (j < length T)%nat → P j) → l = T.
Proof.
  intros [Hlen HP] Hall. apply list_eq. intros j.
  destruct (decide (j < length T)%nat) as [Hlt|Hge]; [auto|].
  rewrite !lookup_ge_None_2; [done|lia|lia].
Qed.

(** ** Planar distance graph *)

Lemma planar_matchingind_length (qubits : list (Qubit * Qubit)) :
  length (planar_matchingind qubits) = (2 * length qubits)%nat.
Proof. unfold planar_matchingind. rewrite length_app, !length_map. lia. Qed.

Lemma planar_matchingind_real (qubits : list (Qubit * Qubit)) (i : nat) (a p : Qubit) :
  qubits !! i = Some (a, p) → planar_matchingind qubits !! i = Some (Some a).
Proof.
  intros Hi. unfold planar_matchingind.
  rewrite lookup_app_l by (rewrite length_map; by eapply lookup_lt_Some).
  by rewrite list_lookup_fmap, Hi.
Qed.

Lemma planar_matchingind_pseudo (qubits : list (Qubit * Qubit)) (i : nat) (a p : Qubit) :
  qubits !! i = Some (a, p) →
  planar_matchingind qubits !! (length qubits + i)%nat = Some (Some p).
Proof.
  intros Hi. unfold planar_matchingind.
  rewrite lookup_app_r by (rewrite length_map; lia).
  rewrite length_map. replace (length qubits + i - length qubits)%nat with i by lia.
  by rewrite list_lookup_fmap, Hi.
Qed.

Lemma planar_boundary_info_length (qubits : list (Qubit * Qubit)) :
  length (planar_boundary_info qubits) = (2 * length qubits)%nat.
Proof.
  unfold planar_boundary_info. rewrite length_app, length_replicate, length_map. lia.
Qed.

Lemma planar_boundary_info_real (qubits : list (Qubit * Qubit)) (i : nat) :
  (i < length qubits)%nat → planar_boundary_info qubits !! i = Some EmptyString.
Proof.
  intros Hi. unfold planar_boundary_info.
  rewrite lookup_app_l by (by rewrite length_replicate).
  by apply lookup_replicate_2.
Qed.

Lemma planar_boundary_info_pseudo (qubits : list (Qubit * Qubit)) (i : nat) (a p : Qubit) :
  qubits !! i = Some (a, p) →
  planar_boundary_info qubits !! (length qubits + i)%nat = Some (boundary_tag p).
Proof.
  intros Hi. unfold planar_boundary_info.
  rewrite lookup_app_r by (rewrite length_replicate; lia).
  rewrite length_replicate.
  replace (length qubits + i - length qubits)%nat with i by lia.
  by rewrite list_lookup_fmap, Hi.
Qed.

Lemma map_enumerate_from {A B : Type} (f : nat * A → B) (k : nat) (l : list A) :
  map f (enumerate_from k l) = imap (fun j a => f ((k + j)%nat, a)) l.
Proof. exact (fmap_imap (fun i a => ((k + i)%nat, a)) f l). Qed.

Lemma map_seq_imap {A B : Type} (f : nat → B) (k : nat) (l : list A) :
  map f (seq k (length l)) = imap (fun j _ => f (k + j)%nat) l.
Proof.
  revert k; induction l as [|a l IH]; intros k; simpl; [done|].
  rewrite Nat.add_0_r, IH. f_equal. apply imap_ext. intros j x _. simpl.
  f_equal. lia.
Qed.

Lemma pairs_from_map {A B : Type} (w : B → B → Z) (g : A → B) (k : nat) (l : list A) :
  pairs_from (fun x y => w (g x) (g y)) k l = pairs_from w k (map g l).
Proof.
  revert k; induction l as [|a l IH]; intros k; simpl; [done|].
  rewrite IH. f_equal. symmetry.
  exact (imap_fmap (fun j q1 => ((k, (k + 1 + j)%nat), w (g a) q1)) g l).
Qed.

Lemma concat_pairs_enumerate {A : Type} (w : A → A → Z) (pre suf : list A) :
  concat (map (fun x : nat * A =>
                 map (fun y : nat * A => ((x.1, y.1), w x.2 y.2))
                     (enumerate_from (x.1 + 1) (drop (x.1 + 1) (pre ++ suf))))
              (enumerate_from (length pre) suf))
  = pairs_from w (length pre) suf.
Proof.
  revert pre; induction suf as [|q r IH]; intros pre; [done|].
  rewrite enumerate_from_cons. cbn [map concat pairs_from fst snd].
  rewrite drop_app_add. cbn [drop]. rewrite map_enumerate_from. f_equal.
  assert (Hlen : S (length pre) = length (pre ++ [q]))
    by (rewrite length_app; simpl; lia).
  rewrite (cons_middle q pre r), app_assoc, Hlen. apply IH.
Qed.

Lemma concat_pairs_seq {A : Type} (k : nat) (l : list A) :
  concat (map (fun i0 : nat =>
                 map (fun i1 : nat => ((i0, i1), 0))
                     (seq (i0 + 1) (k + length l - (i0 + 1))))
              (seq k (length l)))
  = pairs_from (fun _ _ : A => 0) k l.
Proof.
  revert k; induction l as [|q r IH]; intros k; [done|].
  cbn [length seq map concat pairs_from]. f_equal.
  - replace (k + S (length r) - (k + 1))%nat with (length r) by lia.
    apply map_seq_imap.
  - replace (k + S (length r))%nat with (S k + length r)%nat by lia. apply IH.
Qed.

Lemma planar_inner_loop (qubits : list (Qubit * Qubit)) (i0 : nat) (a0 : Qubit)
    (l : list (nat * (Qubit * Qubit))) (e : list WEdge) (bi : list string)
    (ami : list (option Qubit)) (P : nat → Prop) :
  (∀ i1 t, (i1, t) ∈ l → qubits !! i1 = Some t) →
  known (planar_matchingind qubits) ami P →
  ∃ ami',
    for_each l (fun '(i1, (a1, _)) '(edges, bi, ami0) =>
        do ami1 <- py_setitem ami0 i1 (Some a1);
        Ok (edges ++ [((i0, i1), Planar.get_weight a0 a1)], bi, ami1))
      (e, bi, ami)
    = Ok (e ++ map (fun y : nat * (Qubit * Qubit) =>
                      ((i0, y.1), Planar.get_weight a0 y.2.1)) l, bi, ami')
    ∧ known (planar_matchingind qubits) ami' (fun j => P j ∨ ∃ t, (j, t) ∈ l).
Proof.
  revert e ami P. induction l as [|[i1 [a1 p1]] l IH]; intros e ami P Hl Hk.
  - exists ami. simpl. rewrite app_nil_r. split; [done|].
    eapply known_weaken; [exact Hk|]. intros j [Hj|[t Ht]]; [done|].
    by apply elem_of_nil in Ht.
  - destruct (known_setitem _ ami P i1 (Some a1) Hk) as (Hset & Hk1).
    { eapply planar_matchingind_real, Hl. left. }
    destruct (IH (e ++ [((i0, i1), Planar.get_weight a0 a1)]) _ _
                 (fun i t H => Hl i t (list_elem_of_further _ _ _ H)) Hk1)
      as (ami' & Heq & Hk2).
    exists ami'. cbn [for_each]. rewrite Hset. cbn [bind]. rewrite Heq.
    split; [by rewrite <- app_assoc|].
    eapply known_weaken; [exact Hk2|]. intros j [Hj|[t Ht]]; [by left; left|].
    apply elem_of_cons in Ht as [Ht|Ht].
    + inversion Ht; subst. left; by right.
    + right. by exists t.
Qed.

Lemma planar_boundary_loop (f : nat → list nat) (l : list nat) (e : list WEdge)
    (bi : list string) (ami : list (option Qubit)) :
  for_each l (fun i0 '(edges, bi, ami) =>
      for_each (f i0) (fun i1 '(edges, bi, ami) =>
          Ok (edges ++ [((i0, i1), 0)], bi, ami))
        (edges, bi, ami))
    (e, bi, ami)
  = Ok (e ++ concat (map (fun i0 => map (fun i1 => ((i0, i1), 0)) (f i0)) l), bi, ami).
Proof.
  assert (Hin : ∀ (i0 : nat) (l1 : list nat) (e : list WEdge),
    for_each l1 (fun i1 '(edges, bi, ami) =>
        Ok (edges ++ [((i0, i1), 0)], bi, ami)) (e, bi, ami)
    = Ok (e ++ map (fun i1 => ((i0, i1), 0)) l1, bi, ami)).
  { intros i0 l1. induction l1 as [|i1 l1 IH]; intros e1; simpl.
    - by rewrite app_nil_r.
    - rewrite IH. by rewrite <- app_assoc. }
  revert e. induction l as [|i0 l IH]; intros e; simpl.
  - by rewrite app_nil_r.
  - rewrite Hin, IH. by rewrite <- !app_assoc.
Qed.

Lemma planar_get_qubit_distances_eq (qubits : list (Qubit * Qubit)) :
  Planar.get_qubit_distances qubits
  = Ok (planar_edges qubits, planar_boundary_info qubits, planar_matchingind qubits).
Proof.
  unfold Planar.get_qubit_distances.
  set (n := length qubits).
  set (T := planar_matchingind qubits). set (Tb := planar_boundary_info qubits).
  set (F1 := fun x : nat * (Qubit * Qubit) =>
               map (fun y : nat * (Qubit * Qubit) =>
                      ((x.1, y.1), Planar.get_weight x.2.1 y.2.1))
                   (enumerate_from (x.1 + 1) (drop (x.1 + 1) ([] ++ qubits)))).
  match goal with |- context [for_each (enumerate qubits) ?body ?s] =>
    destruct (for_each_inv
      (fun done (st : Planar.Built) =>
         st.1.1 = concat (map F1 done)
         ∧ st.1.2 = replicate (2 * n) EmptyString
         ∧ known T st.2 (fun j => ∃ i x, (i, x) ∈ done ∧ (i ≤ j < n)%nat))
      (enumerate qubits) body s) as (st1 & Heq1 & HI1)
  end.
  { simpl. split; [done|]. split; [done|]. split.
    - rewrite length_replicate. unfold T. by rewrite planar_matchingind_length.
    - intros j (i & x & Hin & _). by apply elem_of_nil in Hin. }
  { intros pre [i0 [a0 p0]] suf [[e bi] ami] Hxs (He & Hbi & Hk). simpl in He, Hbi, Hk.
    subst e bi.
    assert (Hi0 : qubits !! i0 = Some (a0, p0)).
    { assert (Hin : (i0, (a0, p0)) ∈ enumerate qubits) by (rewrite Hxs; set_solver).
      apply elem_of_enumerate_from in Hin as (j & -> & Hj). done. }
    destruct (known_setitem T ami _ i0 (Some a0) Hk) as (Hset & Hk1).
    { by eapply planar_matchingind_real. }
    rewrite Hset. cbn [bind].
    edestruct (planar_inner_loop qubits i0 a0
                 (enumerate_from (i0 + 1) (drop (i0 + 1) qubits)))
      as (ami' & Heq & Hk2); [|exact Hk1|].
    { intros i1 t (j & -> & Hj)%elem_of_enumerate_from.
      by rewrite lookup_drop in Hj. }
    eexists. split; [exact Heq|]. cbn [fst snd]. split; [|split; [done|]].
    - rewrite map_app, concat_app. simpl. by rewrite app_nil_r.
    - eapply known_weaken; [exact Hk2|]. intros j (i & x & Hin & Hij).
      apply elem_of_app in Hin as [Hin|Hin].
      + left; left. eauto.
      + apply list_elem_of_singleton in Hin. inversion Hin; subst.
        destruct (decide (j = i0)) as [->|Hne]; [left; by right|].
        right. destruct (lookup_lt_is_Some_2 qubits j) as [t Ht]; [unfold n in *; lia|].
        exists t. apply elem_of_enumerate_from. exists (j - (i0 + 1))%nat.
        split; [lia|]. rewrite lookup_drop, <- Ht. f_equal. lia. }
  rewrite Heq1. cbn [bind]. destruct st1 as [[e1 bi1] ami1].
  destruct HI1 as (He1 & Hbi1 & Hk1). simpl in He1, Hbi1, Hk1. subst e1 bi1.
  change (n + (n + 0))%nat with (2 * n)%nat.
  set (F2 := fun x : nat * (Qubit * Qubit) =>
               ((x.1, (n + x.1)%nat), boundary_weight x.2.1 x.2.2)).
  match goal with |- context [for_each (enumerate qubits) ?body ?s] =>
    destruct (for_each_inv
      (fun done (st : Planar.Built) =>
         st.1.1 = concat (map F1 (enumerate qubits)) ++ map F2 done
         ∧ known Tb st.1.2
             (fun j => (j < n)%nat ∨ ∃ i x, (i, x) ∈ done ∧ j = (n + i)%nat)
         ∧ known T st.2
             (fun j => (j < n)%nat ∨ ∃ i x, (i, x) ∈ done ∧ j = (n + i)%nat))
      (enumerate qubits) body s) as (st2 & Heq2 & HI2)
  end.
  { cbn [fst snd map]. split; [by rewrite app_nil_r|]. split.
    - split.
      + rewrite length_replicate. unfold Tb. by rewrite planar_boundary_info_length.
      + intros j [Hj|(i & x & Hin & _)]; [|by apply elem_of_nil in Hin].
        rewrite lookup_replicate_2 by lia. unfold Tb.
        by rewrite planar_boundary_info_real.
    - eapply known_weaken; [exact Hk1|].
      intros j [Hj|(i & x & Hin & _)]; [|by apply elem_of_nil in Hin].
      destruct (lookup_lt_is_Some_2 qubits 0) as [t Ht]; [unfold n in *; lia|].
      exists 0%nat, t. split; [|lia].
      apply elem_of_enumerate_from. by exists 0%nat. }
  { intros pre [i [a p]] suf [[e bi] ami] Hxs (He & Hkb & Hk). simpl in He, Hkb, Hk.
    subst e.
    assert (Hi : qubits !! i = Some (a, p)).
    { assert (Hin : (i, (a, p)) ∈ enumerate qubits) by (rewrite Hxs; set_solver).
      apply elem_of_enumerate_from in Hin as (j & -> & Hj). done. }
    destruct (known_setitem Tb bi _ (n + i) (boundary_tag p) Hkb) as (Hsetb & Hkb1).
    { by eapply planar_boundary_info_pseudo. }
    destruct (known_setitem T ami _ (n + i) (Some p) Hk) as (Hset & Hk2).
    { by eapply planar_matchingind_pseudo. }
    exists (concat (map F1 (enumerate qubits)) ++ map F2 (pre ++ [(i, (a, p))]),
            <[(n + i)%nat := boundary_tag p]> bi, <[(n + i)%nat := Some p]> ami).
    split.
    - rewrite map_app, app_assoc. cbn [map].
      change (F2 (i, (a, p))) with ((i, (n + i)%nat), boundary_weight a p).
      unfold boundary_weight, boundary_tag in *. cbn [fst snd] in *.
      destruct (loc a) as [xs ys], (loc p) as [xb yb]. cbn [fst snd] in *.
      destruct (decide (xb = 0)); rewrite Hsetb; cbn [bind]; rewrite Hset; done.
    - cbn [fst snd]. split; [done|]. split.
      + eapply known_weaken; [exact Hkb1|]. intros j [Hj|(i' & x & Hin & ->)].
        * left; by left.
        * apply elem_of_app in Hin as [Hin|Hin]; [left; right; eauto|].
          apply list_elem_of_singleton in Hin. inversion Hin; subst. by right.
      + eapply known_weaken; [exact Hk2|]. intros j [Hj|(i' & x & Hin & ->)].
        * left; by left.
        * apply elem_of_app in Hin as [Hin|Hin]; [left; right; eauto|].
          apply list_elem_of_singleton in Hin. inversion Hin; subst. by right. }
  rewrite Heq2. cbn [bind]. destruct st2 as [[e2 bi2] ami2].
  destruct HI2 as (He2 & Hkb2 & Hk2). simpl in He2, Hkb2, Hk2. subst e2.
  rewrite (planar_boundary_loop (fun i0 => seq (i0 + 1) (2 * n - (i0 + 1)))).
  assert (Hcover : ∀ j, (j < 2 * n)%nat →
            (j < n)%nat ∨ ∃ i x, (i, x) ∈ enumerate qubits ∧ j = (n + i)%nat).
  { intros j Hj. destruct (decide (j < n)%nat) as [|Hge]; [by left|right].
    destruct (lookup_lt_is_Some_2 qubits (j - n)) as [t Ht]; [unfold n in *; lia|].
    exists (j - n)%nat, t. split; [|lia].
    apply elem_of_enumerate_from. by exists (j - n)%nat. }
  f_equal. f_equal; [f_equal|].
  - unfold planar_edges. rewrite <- app_assoc. f_equal; [|f_equal].
    + etrans; [exact (concat_pairs_enumerate
        (fun t0 t1 : Qubit * Qubit => Planar.get_weight t0.1 t1.1) [] qubits)|].
      apply pairs_from_map.
    + unfold enumerate. rewrite map_enumerate_from. done.
    + replace (2 * n - n)%nat with (length (map snd qubits))
        by (rewrite length_map; unfold n; lia).
      replace (2 * n)%nat with (n + length (map snd qubits))%nat
        by (rewrite length_map; unfold n; lia).
      apply concat_pairs_seq.
  - eapply known_all; [exact Hkb2|]. unfold Tb.
    rewrite planar_boundary_info_length. exact Hcover.
  - eapply known_all; [exact Hk2|]. unfold T.
    rewrite planar_matchingind_length. exact Hcover.
Qed.

Lemma NoDup_planar_edges (qubits : list (Qubit * Qubit)) :
  NoDup (planar_edges qubits).*1.
Proof.
  unfold planar_edges. rewrite !fmap_app.
  apply NoDup_app. split; [apply NoDup_pairs_from|]. split.
  - intros [i j] Hin1 Hin2.
    apply list_elem_of_fmap in Hin1 as ([[i1 j1] x1] & Heq1 & Hin1).
    simpl in Heq1. inversion Heq1; subst i1 j1; clear Heq1.
    apply elem_of_pairs_from in Hin1 as (a & b & qa & qb & -> & -> & Hlt & _ & Hb & _).
    apply lookup_lt_Some in Hb. rewrite length_map in Hb.
    apply elem_of_app in Hin2 as [Hin2|Hin2];
      apply list_elem_of_fmap in Hin2 as ([[i2 j2] x2] & Heq2 & Hin2);
      simpl in Heq2; inversion Heq2; subst i2 j2; clear Heq2.
    + apply elem_of_lookup_imap in Hin2 as (k & t & Heq & _).
      injection Heq as Hak Hbk _. lia.
    + apply elem_of_pairs_from in Hin2 as (a' & ? & ? & ? & Hi & _). lia.
  - apply NoDup_app. split; [|split; [|apply NoDup_pairs_from]].
    + rewrite fmap_imap. apply NoDup_alt. intros k1 k2 x H1 H2.
      rewrite list_lookup_imap in H1, H2.
      destruct (qubits !! k1); [|done]. destruct (qubits !! k2); [|done].
      simpl in *. inversion H1; subst. inversion H2. lia.
    + intros [i j] Hin1 Hin2.
      apply list_elem_of_fmap in Hin1 as ([[i1 j1] x1] & Heq1 & Hin1).
      simpl in Heq1. inversion Heq1; subst i1 j1; clear Heq1.
      apply elem_of_lookup_imap in Hin1 as (k & t & Heq & Hk). inversion Heq; subst.
      apply lookup_lt_Some in Hk.
      apply list_elem_of_fmap in Hin2 as ([[i2 j2] x2] & Heq2 & Hin2).
      simpl in Heq2. inversion Heq2; subst i2 j2; clear Heq2.
      apply elem_of_pairs_from in Hin2 as (a' & ? & ? & ? & Hi & _). lia.
Qed.

(** C3. For [n] (real site, boundary site) tuples the planar builder returns
    [n (n - 1) / 2 + n + n (n - 1) / 2] edges, no two on the same pair of
    nodes: one edge of weight |dx| + |dy| + |dlayer| for each pair of real
    sites, one edge from each real site [i] to its boundary node [n + i],
    and one edge of weight 0 for each pair of boundary nodes; no tuple gives
    no edge. *)
Theorem planar_distance_graph_complete :
  (∀ qubits : list (Qubit * Qubit),
    let n := length qubits in
    ∃ (rr rb bb : list WEdge) (bi : list string) (ami : list (option Qubit)),
      Planar.get_qubit_distances qubits = Ok (rr ++ rb ++ bb, bi, ami)
      ∧ length (rr ++ rb ++ bb) = (n * (n - 1) / 2 + n + n * (n - 1) / 2)%nat
      ∧ NoDup (rr ++ rb ++ bb).*1
      ∧ (∀ (i j : nat) (w : Z),
           ((i, j), w) ∈ rr ↔
           (i < j)%nat ∧ ∃ ti tj, qubits !! i = Some ti ∧ qubits !! j = Some tj
             ∧ w = py_int (Z.abs ((loc ti.1).1 - (loc tj.1).1))
                   + py_int (Z.abs ((loc ti.1).2 - (loc tj.1).2))
                   + Z.abs (z ti.1 - z tj.1))
      ∧ (∀ (i j : nat) (w : Z),
           ((i, j), w) ∈ rb ↔
           ∃ t, qubits !! i = Some t ∧ j = (n + i)%nat ∧ w = boundary_weight t.1 t.2)
      ∧ (∀ (i j : nat) (w : Z),
           ((i, j), w) ∈ bb ↔ (n ≤ i)%nat ∧ (i < j)%nat ∧ (j < 2 * n)%nat ∧ w = 0))
  ∧ Planar.get_qubit_distances [] = Ok ([], [], []).
Proof.
  split; [|reflexivity].
  intros qubits n.
  exists (pairs_from Planar.get_weight 0 (map fst qubits)),
    (imap (fun i t => ((i, (n + i)%nat), boundary_weight t.1 t.2)) qubits),
    (pairs_from (fun _ _ : Qubit => 0) n (map snd qubits)),
    (planar_boundary_info qubits), (planar_matchingind qubits).
  split; [apply planar_get_qubit_distances_eq|].
  split; [|split; [apply NoDup_planar_edges|split; [|split]]].
  - pose proof (half_of_twice _ _
                  (length_pairs_from Planar.get_weight 0 (map fst qubits))) as H1.
    pose proof (half_of_twice _ _
                  (length_pairs_from (fun _ _ : Qubit => 0) n (map snd qubits))) as H2.
    rewrite !length_map in H1, H2.
    rewrite !length_app, length_imap, H1, H2. unfold n. lia.
  - intros i j w. rewrite elem_of_pairs_from. split.
    + intros (a & b & qa & qb & -> & -> & Hlt & Ha & Hb & ->). simpl.
      split; [done|].
      change (map fst qubits) with (fst <$> qubits) in Ha, Hb.
      apply list_lookup_fmap_Some in Ha as (ti & -> & Hti).
      apply list_lookup_fmap_Some in Hb as (tj & -> & Htj).
      exists ti, tj. split; [done|]. split; [done|].
      unfold Planar.get_weight. destruct (loc ti.1), (loc tj.1). simpl. lia.
    + intros (Hlt & ti & tj & Hti & Htj & ->). exists i, j, ti.1, tj.1.
      change (map fst qubits) with (fst <$> qubits).
      rewrite !list_lookup_fmap, Hti, Htj. simpl.
      repeat split; try done.
      unfold Planar.get_weight. destruct (loc ti.1), (loc tj.1). simpl. lia.
  - intros i j w. rewrite elem_of_lookup_imap. split.
    + intros (k & t & Heq & Hk). inversion Heq; subst. by exists t.
    + intros (t & Ht & -> & ->). by exists i, t.
  - intros i j w. rewrite elem_of_pairs_from. split.
    + intros (a & b & qa & qb & -> & -> & Hlt & Ha & Hb & ->).
      apply lookup_lt_Some in Hb. rewrite length_map in Hb. fold n in Hb.
      repeat split; lia.
    + intros (Hi & Hlt & Hj & ->).
      destruct (lookup_lt_is_Some_2 (map snd qubits) (i - n)) as [qa Ha];
        [rewrite length_map; fold n; lia|].
      destruct (lookup_lt_is_Some_2 (map snd qubits) (j - n)) as [qb Hb];
        [rewrite length_map; fold n; lia|].
      exists (i - n)%nat, (j - n)%nat, qa, qb. repeat split; try done; lia.
Qed.

(** C4 (as the code has it).  For the tuple (real site [a], boundary site
    [p]) at position [i] among [n], the only edge between nodes [i] and
    [n + i] weighs the distance from [a] to [p] along x when [a] is of
    type "x" and along y otherwise; node [i] carries no side, and node
    [n + i] is tagged "L" exactly when the x coordinate of [p] is 0 and "R"
    exactly when it is not, whatever the type of the sites. *)
Theorem planar_boundary_edge_and_tag (qubits : list (Qubit * Qubit)) (i : nat)
    (a p : Qubit) :
  qubits !! i = Some (a, p) →
  ∃ (edges : list WEdge) (bi : list string) (ami : list (option Qubit)),
    Planar.get_qubit_distances qubits = Ok (edges, bi, ami)
    ∧ (∀ w : Z,
         ((i, (length qubits + i)%nat), w) ∈ edges ↔
         w = if decide (state_type a = "x")
             then py_int (Z.abs ((loc p).1 - (loc a).1))
             else py_int (Z.abs ((loc p).2 - (loc a).2)))
    ∧ bi !! i = Some EmptyString
    ∧ (bi !! (length qubits + i)%nat = Some "L" ↔ (loc p).1 = 0)
    ∧ (bi !! (length qubits + i)%nat = Some "R" ↔ (loc p).1 ≠ 0).
Proof.
  intros Hi. pose proof (lookup_lt_Some _ _ _ Hi) as Hlt.
  exists (planar_edges qubits), (planar_boundary_info qubits),
    (planar_matchingind qubits).
  split; [apply planar_get_qubit_distances_eq|]. split; [|split].
  - intros w. unfold planar_edges. rewrite !elem_of_app, !elem_of_pairs_from.
    rewrite elem_of_lookup_imap. split.
    + intros [(a1 & b1 & ? & qb & ? & Hb & _ & _ & Hqb & _)|
              [(k & t & Heq & Hk)|(a1 & b1 & ? & ? & Ha & _)]].
      * apply lookup_lt_Some in Hqb. rewrite length_map in Hqb. lia.
      * injection Heq as -> _ ->. rewrite Hi in Hk. injection Hk as <-.
        unfold boundary_weight. simpl. by destruct (decide (state_type a = "x")).
      * lia.
    + intros ->. right; left. exists i, (a, p). split; [|done].
      unfold boundary_weight. simpl. by destruct (decide (state_type a = "x")).
  - by apply planar_boundary_info_real.
  - rewrite (planar_boundary_info_pseudo qubits i a p Hi). unfold boundary_tag.
    destruct (decide ((loc p).1 = 0)) as [H0|H0]; split; split;
      intros H; try done; try (by inversion H).
Qed.

(** The scenario of C4: one real x-type site at x = 1 whose boundary site is
    at x = 0. *)
Lemma planar_boundary_edge_and_tag_witness :
  [(mkQubit (2, 0) 0 "x" "A", mkQubit (0, 0) 0 "x" "pA")] !! 0%nat
  = Some (mkQubit (2, 0) 0 "x" "A", mkQubit (0, 0) 0 "x" "pA")
  ∧ ∃ (edges : list WEdge) (bi : list string) (ami : list (option Qubit)),
      Planar.get_qubit_distances
        [(mkQubit (2, 0) 0 "x" "A", mkQubit (0, 0) 0 "x" "pA")] = Ok (edges, bi, ami)
      ∧ ((0%nat, 1%nat), 1) ∈ edges
      ∧ bi !! 1%nat = Some "L".
Proof.
  split; [reflexivity|].
  destruct (planar_boundary_edge_and_tag
              [(mkQubit (2, 0) 0 "x" "A", mkQubit (0, 0) 0 "x" "pA")] 0
              (mkQubit (2, 0) 0 "x" "A") (mkQubit (0, 0) 0 "x" "pA") eq_refl)
    as (edges & bi & ami & Heq & Hw & _ & HL & _).
  exists edges, bi, ami. split; [exact Heq|]. split.
  - apply Hw. reflexivity.
  - apply HL. reflexivity.
Defined.

(** C4 as stated fails on a z-type tuple: the real site (1.5, 0.5) and its
    boundary site (1.5, -0.5) on the lower edge of a lattice that spans x in
    [0, 5] and y in [-0.5, 4.5].  The edge weighs the vertical distance 1,
    but the node is tagged "R": its y coordinate is the minimum extent, and
    its x coordinate is not the maximum extent. *)
Lemma planar_boundary_tag_counterexample :
  ∃ (edges : list WEdge) (bi : list string) (ami : list (option Qubit)),
    Planar.get_qubit_distances
      [(mkQubit (3, 1) 0 "z" "A", mkQubit (3, -1) 0 "z" "pA")] = Ok (edges, bi, ami)
    ∧ ((0%nat, 1%nat), 1) ∈ edges
    ∧ bi !! 1%nat = Some "R"
    ∧ ¬ tag_by_extent (-1) 9 (-1) (bi !! 1%nat)
    ∧ ¬ tag_by_extent 0 10 3 (bi !! 1%nat).
Proof.
  eexists _, _, _. split; [reflexivity|]. split; [|split; [reflexivity|split]].
  - apply list_elem_of_singleton. reflexivity.
  - intros [HL _]. cbn in HL. assert (H : Some "R" = Some "L") by (by apply HL).
    discriminate H.
  - intros [_ HR]. cbn in HR. assert (H : 3 = 10) by (by apply HR).
    discriminate H.
Qed.

(** ** Matching adapter *)

(** C5 (as the code has it).  Without the Blossom V library, the backend
    raises [FileNotFoundError] for every edge list and every nonzero node
    count, and for a node count of zero returns the empty matching, before
    it looks for the library. *)
Theorem blossomv_missing_library `{Services} (edges : list WEdge) (num_nodes : nat) :
  PMlib = None →
  Toric.match_blossomv edges num_nodes
  = if decide (num_nodes = 0%nat) then Ok [] else Raise FileNotFoundError.
Proof.
  intros Hlib. unfold Toric.match_blossomv.
  destruct (decide (num_nodes = 0%nat)); [done|]. by rewrite Hlib.
Qed.

Lemma blossomv_missing_library_witness :
  @PMlib demo_services = None
  ∧ Toric.match_blossomv [((0%nat, 1%nat), 3)] 2 = Raise FileNotFoundError.
Proof.
  split; [reflexivity|].
  exact (blossomv_missing_library [((0%nat, 1%nat), 3)] 2 eq_refl).
Defined.

(** C5 as stated fails for a node count of zero: no error is raised
    although the library is absent. *)
Lemma blossomv_missing_library_counterexample :
  @PMlib demo_services = None
  ∧ Toric.match_blossomv [((0%nat, 1%nat), 3)] 0 = Ok [].
Proof. split; reflexivity. Qed.

(** ** Walk direction *)

(** C7. On each axis the toric walk direction takes the shorter of the
    forward and the backward wrapped distance, with the unit direction of
    the walk that covers it (the x walk starts from the second site, the y
    walk from the first); when the two are equal it takes the forward one. *)
Theorem toric_walk_direction_shorter (q0 q1 : Qubit) (Px Py : Z) :
  Px ≠ 0 → Py ≠ 0 →
  let fx := forward (loc q0).1 (loc q1).1 Px in
  let bx := backward (loc q0).1 (loc q1).1 Px in
  let fy := forward (loc q0).2 (loc q1).2 Py in
  let by_ := backward (loc q0).2 (loc q1).2 Py in
  ∃ (dx dy : Z) (xd yd : Key),
    Toric._walk_direction q0 q1 (Px, Py) = Ok (dx, dy, xd, yd)
    ∧ dx = Z.min fx bx ∧ dy = Z.min fy by_
    ∧ (dx, xd) = (if decide (bx < fx) then (bx, (1, 0)) else (fx, (-1, 0)))
    ∧ (dy, yd) = (if decide (by_ < fy) then (by_, (0, -1)) else (fy, (0, 1)))
    ∧ (fx = bx → (dx, xd) = (fx, (-1, 0)))
    ∧ (fy = by_ → (dy, yd) = (fy, (0, 1))).
Proof.
  intros Hx Hy fx bx fy by_.
  unfold Toric._walk_direction, py_mod. subst fx bx fy by_. unfold forward, backward.
  destruct (loc q0) as [x0 y0], (loc q1) as [x1 y1]. cbn [fst snd].
  rewrite !decide_False by done. cbn [bind].
  set (bx := py_int (x0 - x1) mod Px). set (fx := py_int (x1 - x0) mod Px).
  set (by_ := py_int (y0 - y1) mod Py). set (fy := py_int (y1 - y0) mod Py).
  destruct (decide (bx < fx)) as [Hbx|Hbx], (decide (by_ < fy)) as [Hby|Hby];
    eexists _, _, _, _; (split; [reflexivity|]);
    repeat split; try lia; try done; intros Heq; try lia; done.
Qed.

Lemma toric_walk_direction_shorter_witness :
  (6 ≠ 0 ∧ 6 ≠ 0)
  ∧ Toric._walk_direction (site 0) (site 3) (6, 6) = Ok (3, 0, (-1, 0), (0, 1)).
Proof.
  split; [split; lia|].
  destruct (toric_walk_direction_shorter (site 0) (site 3) 6 6)
    as (dx & dy & xd & yd & Heq & _ & _ & _ & _ & Hx & Hy); [lia|lia|].
  rewrite Heq.
  specialize (Hx eq_refl). specialize (Hy eq_refl).
  injection Hx as -> ->. injection Hy as -> ->. reflexivity.
Defined.

(** ** Correction walk *)

Lemma steps_taken_le `{Lattice L} (n : nat) (c : L) (qubit : Qubit) (key : Key) :
  (steps_taken n c qubit key ≤ n)%nat.
Proof.
  revert c qubit. induction n as [|n IH]; intros c qubit; simpl; [lia|].
  destruct (correct_edge c qubit key) as [[c' qubit']|e]; [|lia].
  specialize (IH c' qubit'). lia.
Qed.

(** A walk of [n] planned steps is the walk of the steps it takes: the
    steps after the first failure are skipped. *)
Lemma walk_steps_taken `{Lattice L} (n : nat) (c : L) (qubit : Qubit) (key : Key) :
  Toric.walk_steps n c qubit key
  = Toric.walk_steps (steps_taken n c qubit key) c qubit key.
Proof.
  revert c qubit. induction n as [|n IH]; intros c qubit; simpl; [done|].
  destruct (correct_edge c qubit key) as [[c' qubit']|e] eqn:Hstep; simpl.
  - by rewrite Hstep.
  - done.
Qed.

(** A walk that stops early stops where the next edge is missing. *)
Lemma walk_steps_stuck `{Lattice L} (n : nat) (c : L) (qubit : Qubit) (key : Key) :
  (steps_taken n c qubit key < n)%nat →
  ∃ e, correct_edge (Toric.walk_steps n c qubit key).1
                    (Toric.walk_steps n c qubit key).2 key = Raise e.
Proof.
  revert c qubit. induction n as [|n IH]; intros c qubit; simpl; [lia|].
  destruct (correct_edge c qubit key) as [[c' qubit']|e] eqn:Hstep; simpl.
  - intros Hlt. apply IH. lia.
  - intros _. by exists e.
Qed.

(** C6 (as the code has it).  Once the two sites are found on the decode
    layer and the walk direction is computed, correcting a matched pair
    never raises: each walk flips the edges up to the first missing one and
    skips the rest.  The weight returned is the planned number of y steps
    plus the planned number of x steps plus the absolute layer difference,
    whether or not a walk stopped early. *)
Theorem correction_walk_truncation `{Lattice L}
    (walk_direction : Qubit → Qubit → Z * Z → res (Z * Z * Key * Key))
    (c : L) (aq0 aq1 dq0 dq1 : Qubit) (dx dy : Z) (xd yd : Key) :
  Toric.decode_layer_qubit c aq0 = Ok dq0 →
  Toric.decode_layer_qubit c aq1 = Ok dq1 →
  walk_direction aq0 aq1 (size c) = Ok (dx, dy, xd, yd) →
  let ny := steps_taken (Z.to_nat dy) c dq0 yd in
  let c1 := (Toric.walk_steps ny c dq0 yd).1 in
  let nx := steps_taken (Z.to_nat dx) c1 dq1 xd in
  (ny ≤ Z.to_nat dy)%nat ∧ (nx ≤ Z.to_nat dx)%nat
  ∧ Toric.correct_matched_qubits_with walk_direction c aq0 aq1
    = Ok (dy + dx + Z.abs (z aq0 - z aq1), (Toric.walk_steps nx c1 dq1 xd).1).
Proof.
  intros H0 H1 Hwd. cbv zeta.
  split; [apply steps_taken_le|]. split; [apply steps_taken_le|].
  unfold Toric.correct_matched_qubits_with, Toric._walk_and_correct.
  rewrite H0, H1. cbn [bind]. rewrite Hwd. cbn [bind].
  rewrite (walk_steps_taken (Z.to_nat dy)).
  destruct (Toric.walk_steps _ c dq0 yd) as [c1 xv]. cbn [fst].
  rewrite (walk_steps_taken (Z.to_nat dx)).
  by destruct (Toric.walk_steps _ c1 dq1 xd).
Qed.

Lemma correction_walk_truncation_witness :
  Toric.decode_layer_qubit demo_hole (site 1) = Ok (site 1)
  ∧ Toric.decode_layer_qubit demo_hole (site 3) = Ok (site 3)
  ∧ Toric._walk_direction (site 1) (site 3) (size demo_hole) = Ok (2, 0, (-1, 0), (0, 1))
  ∧ Toric._correct_matched_qubits demo_hole (site 1) (site 3) = Ok (2, demo_hole).
Proof.
  assert (H0 : Toric.decode_layer_qubit demo_hole (site 1) = Ok (site 1))
    by (vm_compute; reflexivity).
  assert (H1 : Toric.decode_layer_qubit demo_hole (site 3) = Ok (site 3))
    by (vm_compute; reflexivity).
  assert (Hwd : Toric._walk_direction (site 1) (site 3) (size demo_hole)
                = Ok (2, 0, (-1, 0), (0, 1))) by (vm_compute; reflexivity).
  split; [exact H0|]. split; [exact H1|]. split; [exact Hwd|].
  destruct (correction_walk_truncation Toric._walk_direction demo_hole
              (site 1) (site 3) (site 1) (site 3) 2 0 (-1, 0) (0, 1) H0 H1 Hwd)
    as (_ & _ & Heq).
  unfold Toric._correct_matched_qubits. rewrite Heq. vm_compute. reflexivity.
Defined.

(** C6 as stated fails where a walk stops early.  On the row whose site at
    x = 2 is missing, the pair of sites at x = 1 and x = 3 plans two x
    steps; the first one already fails, no edge is flipped, and the weight
    returned is 2, not the 0 steps taken. *)
Lemma correction_walk_weight_counterexample :
  Toric._correct_matched_qubits demo_hole (site 1) (site 3) = Ok (2, demo_hole)
  ∧ steps_taken 0 demo_hole (site 1) (0, 1) = 0%nat
  ∧ steps_taken 2 demo_hole (site 3) (-1, 0) = 0%nat
  ∧ 2 ≠ Z.of_nat (steps_taken 0 demo_hole (site 1) (0, 1))
        + Z.of_nat (steps_taken 2 demo_hole (site 3) (-1, 0))
        + Z.abs (z (site 1) - z (site 3)).
Proof.
  split; [vm_compute; reflexivity|]. split; [vm_compute; reflexivity|].
  split; [vm_compute; reflexivity|]. vm_compute. discriminate.
Qed.

(** ** Applying a matching *)

Lemma toric_correct_loop `{Lattice L} (syndromes : list Qubit) (matching : list (Z * Z))
    (weight : Z) (s : Sim L) :
  for_each matching (fun '(i0, i1) '(weight, s) =>
      do aq0 <- py_getitem syndromes i0;
      do aq1 <- py_getitem syndromes i1;
      do (w, c) <- Toric._correct_matched_qubits (code s) aq0 aq1;
      Ok (weight + w, set_code s c)) (weight, s)
  = do (w, c) <- toric_correct_pairs syndromes matching (weight, code s);
    Ok (w, set_code s c).
Proof.
  unfold toric_correct_pairs.
  revert weight s. induction matching as [|[i0 i1] m IH]; intros weight s.
  - simpl. by destruct s.
  - cbn [for_each].
    destruct (py_getitem syndromes i0) as [aq0|]; [|done].
    destruct (py_getitem syndromes i1) as [aq1|]; [|done]. cbn [bind].
    destruct (Toric._correct_matched_qubits (code s) aq0 aq1) as [[w c]|]; [|done].
    cbn [bind]. rewrite IH. cbn [code set_code].
    destruct (for_each m _ (weight + w, c)) as [[w' c']|]; [|done]. done.
Qed.

Lemma planar_correct_loop `{Lattice L} (syndromes : list (Qubit * Qubit))
    (matching : list (Z * Z)) (weight : Z) (s : Sim L) :
  for_each matching (fun '(i0, i1) '(weight, s) =>
      if decide (i0 < Z.of_nat (length syndromes) ∨ i1 < Z.of_nat (length syndromes))
      then
        do aq0 <- Planar.matched_site syndromes i0;
        do aq1 <- Planar.matched_site syndromes i1;
        do (w, c) <- Planar._correct_matched_qubits (code s) aq0 aq1;
        Ok (weight + w, set_code s c)
      else Ok (weight, s)) (weight, s)
  = do (w, c) <- planar_correct_pairs syndromes matching (weight, code s);
    Ok (w, set_code s c).
Proof.
  unfold planar_correct_pairs.
  revert weight s. induction matching as [|[i0 i1] m IH]; intros weight s.
  - simpl. by destruct s.
  - cbn [for_each].
    destruct (decide (i0 < Z.of_nat (length syndromes)
                      ∨ i1 < Z.of_nat (length syndromes))); [|by rewrite IH].
    destruct (Planar.matched_site syndromes i0) as [aq0|]; [|done].
    destruct (Planar.matched_site syndromes i1) as [aq1|]; [|done]. cbn [bind].
    destruct (Planar._correct_matched_qubits (code s) aq0 aq1) as [[w c]|]; [|done].
    cbn [bind]. rewrite IH. cbn [code set_code].
    destruct (for_each m _ (weight + w, c)) as [[w' c']|]; [|done]. done.
Qed.

Lemma planar_correct_matching_outcome `{Lattice L} (s : Sim L)
    (syndromes : list (Qubit * Qubit)) (matching : list (Z * Z)) :
  outcome (Planar.correct_matching s syndromes matching)
  = planar_correct_pairs syndromes matching (0, code s).
Proof.
  unfold Planar.correct_matching. rewrite planar_correct_loop. cbn [code log].
  by destruct (planar_correct_pairs syndromes matching (0, code s)) as [[w c]|].
Qed.

(** C10. A matched pair whose two indices are both at least the number of
    syndrome tuples is skipped: wherever it stands in the matching, the
    total weight and the lattice come out as if the pair were not there,
    and a matching made of such a pair alone returns weight 0 and leaves
    the lattice as it was. *)
Theorem planar_boundary_pairs_skipped `{Lattice L} (s : Sim L)
    (syndromes : list (Qubit * Qubit)) (m1 m2 : list (Z * Z)) (i0 i1 : Z) :
  Z.of_nat (length syndromes) ≤ i0 →
  Z.of_nat (length syndromes) ≤ i1 →
  outcome (Planar.correct_matching s syndromes (m1 ++ (i0, i1) :: m2))
  = outcome (Planar.correct_matching s syndromes (m1 ++ m2))
  ∧ outcome (Planar.correct_matching s syndromes [(i0, i1)]) = Ok (0, code s).
Proof.
  intros H0 H1. rewrite !planar_correct_matching_outcome.
  unfold planar_correct_pairs. split.
  - rewrite !for_each_app.
    destruct (for_each m1 _ (0, code s)) as [[w c]|]; [|done].
    cbn [bind for_each]. rewrite decide_False by lia. done.
  - cbn [for_each]. rewrite decide_False by lia. done.
Qed.

(** On the distance-10 row with syndromes at x = 4 and x = 7, the matching
    [(0, 1); (2, 3)] pairs the two real sites and the two boundary nodes. *)
Lemma planar_boundary_pairs_skipped_witness :
  (Z.of_nat (length (demo_syndrome_pseudo demo_wide).1) ≤ 2
   ∧ Z.of_nat (length (demo_syndrome_pseudo demo_wide).1) ≤ 3)
  ∧ outcome (Planar.correct_matching (demo_sim demo_wide)
               (demo_syndrome_pseudo demo_wide).1 [(0, 1); (2, 3)])
    = outcome (Planar.correct_matching (demo_sim demo_wide)
                 (demo_syndrome_pseudo demo_wide).1 [(0, 1)])
  ∧ outcome (Planar.correct_matching (demo_sim demo_wide)
               (demo_syndrome_pseudo demo_wide).1 [(2, 3)]) = Ok (0, demo_wide).
Proof.
  split; [simpl; lia|].
  apply (planar_boundary_pairs_skipped (demo_sim demo_wide)
           (demo_syndrome_pseudo demo_wide).1 [(0, 1)] [] 2 3); simpl; lia.
Defined.

(** ** The decoding pass *)

Lemma toric_correct_matching_calls `{Lattice L} (s s' : Sim L) (syndromes : list Qubit)
    (matching : list (Z * Z)) (w : Z) :
  Toric.correct_matching s syndromes matching = Ok (w, s') →
  calls s' = calls s ++ [Correct syndromes matching].
Proof.
  unfold Toric.correct_matching. rewrite toric_correct_loop.
  destruct (toric_correct_pairs _ _ _) as [[w' c']|]; [|done].
  cbn [bind]. intros [= _ <-]. done.
Qed.

Lemma planar_correct_matching_calls `{Lattice L} (s s' : Sim L)
    (syndromes : list (Qubit * Qubit)) (matching : list (Z * Z)) (w : Z) :
  Planar.correct_matching s syndromes matching = Ok (w, s') →
  calls s' = calls s ++ [Correct (map fst syndromes) matching].
Proof.
  unfold Planar.correct_matching. rewrite planar_correct_loop.
  destruct (planar_correct_pairs _ _ _) as [[w' c']|]; [|done].
  cbn [bind]. intros [= _ <-]. done.
Qed.

Lemma toric_match_syndromes_calls `{Lattice L, Services} (s s' : Sim L)
    (syndromes : list Qubit) (use_blossomv : bool) (matching : list (Z * Z)) :
  Toric.match_syndromes s syndromes use_blossomv = Ok (matching, s') →
  ∃ edges,
    Toric.get_qubit_distances syndromes (size (code s)) = Ok edges
    ∧ Toric.matching_graph use_blossomv edges (config_max_cardinality s)
                           (length syndromes) = Ok matching
    ∧ code s' = code s
    ∧ calls s' = calls s ++ [BuildGraph syndromes; Match edges (length syndromes)].
Proof.
  unfold Toric.match_syndromes. cbn [code log config_max_cardinality].
  destruct (Toric.get_qubit_distances syndromes (size (code s))) as [edges|]; [|done].
  cbn [bind].
  destruct (Toric.matching_graph _ _ _ _) as [m|] eqn:Hm; [|done].
  cbn [bind]. intros [= <- <-]. exists edges. cbn [code calls log].
  rewrite <- app_assoc. done.
Qed.

Lemma planar_match_syndromes_calls `{Lattice L, Services} (s s' : Sim L)
    (syndromes : list (Qubit * Qubit)) (use_blossomv : bool)
    (matching : list (Z * Z)) :
  Planar.match_syndromes s syndromes use_blossomv = Ok (matching, s') →
  Toric.matching_graph use_blossomv (planar_edges syndromes)
                       (config_max_cardinality s) (length syndromes) = Ok matching
  ∧ code s' = code s
  ∧ self_matching s' = matching
  ∧ boundary_info s' = planar_boundary_info syndromes
  ∧ ancillas_matchingind s' = planar_matchingind syndromes
  ∧ calls s' = calls s ++ [BuildGraph (map fst syndromes);
                           Match (planar_edges syndromes) (length syndromes)].
Proof.
  unfold Planar.match_syndromes. rewrite planar_get_qubit_distances_eq.
  cbn [bind log set_scratch self_edges code config_max_cardinality].
  destruct (Toric.matching_graph _ _ _ _) as [m|] eqn:Hm; [|done].
  cbn [bind set_matching self_matching]. intros [= <- <-].
  cbn [code calls self_matching boundary_info ancillas_matchingind log set_scratch
       set_matching].
  rewrite <- app_assoc. done.
Qed.

Lemma calc_phi_state `{Lattice L, Services} (s s' : Sim L) (phi : PathLength) :
  Planar.calc_phi s = Ok (phi, s') → s' = log s EstimateFailure.
Proof.
  unfold Planar.calc_phi.
  destruct (Planar.structure_graph _ _) as [[G bn]|]; [|done]. cbn [bind].
  destruct (Planar.shortcuts _ _ _ _ _) as [G1|]; [|done]. cbn [bind].
  destruct (Planar.connect_sides _ _ _) as [G2|]; [|done]. cbn [bind].
  destruct (Planar.select_hubs _) as [[s0|] [t0|]]; try done.
  destruct (single_source_dijkstra G2 s0 t0) as [len|]; [|done].
  cbn [bind]. by intros [= _ <-].
Qed.

Lemma calc_phi_calls `{Lattice L, Services} (s s' : Sim L) (phi : PathLength) :
  Planar.calc_phi s = Ok (phi, s') → calls s' = calls s ++ [EstimateFailure].
Proof. by intros ->%calc_phi_state. Qed.

(** C1 (as the code has it).  A toric decoding pass returns exactly when,
    first for the plaquettes and then for the stars, building the distance
    graph of the syndromes, matching it with the backend and applying the
    correction of every matched pair to the lattice all succeed, the stars
    on the lattice the plaquettes left; the decoder it returns holds the
    lattice so corrected and has logged, after the one syndrome extraction,
    these steps in this order.  A planar decoding pass returns exactly when
    the three steps succeed for the plaquettes, the error rate is there to
    be read and the failure estimate on the lattice the plaquettes left
    succeeds: it makes no call for the stars and no star correction reaches
    the lattice. *)
Theorem decode_pass_steps `{Lattice L, Services} (s : Sim L) (use_blossomv : bool) :
  (∀ s' : Sim L,
     Toric.decode s use_blossomv = Ok s' ↔
     ∃ e1 m1 w1 c1 e2 m2 w2 c2,
       Toric.get_qubit_distances (get_syndrome (code s)).1 (size (code s)) = Ok e1
       ∧ Toric.matching_graph use_blossomv e1 (config_max_cardinality s)
                              (length (get_syndrome (code s)).1) = Ok m1
       ∧ toric_correct_pairs (get_syndrome (code s)).1 m1 (0, code s) = Ok (w1, c1)
       ∧ Toric.get_qubit_distances (get_syndrome (code s)).2 (size c1) = Ok e2
       ∧ Toric.matching_graph use_blossomv e2 (config_max_cardinality s)
                              (length (get_syndrome (code s)).2) = Ok m2
       ∧ toric_correct_pairs (get_syndrome (code s)).2 m2 (0, c1) = Ok (w2, c2)
       ∧ s' = mkSim c2 (config_max_cardinality s) (self_edges s) (self_matching s)
                    (boundary_info s) (ancillas_matchingind s)
                    (calls s ++
                     [ExtractSyndromes;
                      BuildGraph (get_syndrome (code s)).1;
                      Match e1 (length (get_syndrome (code s)).1);
                      Correct (get_syndrome (code s)).1 m1;
                      BuildGraph (get_syndrome (code s)).2;
                      Match e2 (length (get_syndrome (code s)).2);
                      Correct (get_syndrome (code s)).2 m2]))
  ∧ (∀ (phi : PathLength) (s' : Sim L),
       Planar.decode s use_blossomv = Ok (phi, s') ↔
       ∃ e bi ami m w c1 p,
         Planar.get_qubit_distances (get_syndrome_pseudo (code s)).1 = Ok (e, bi, ami)
         ∧ Toric.matching_graph use_blossomv e (config_max_cardinality s)
                                (length (get_syndrome_pseudo (code s)).1) = Ok m
         ∧ planar_correct_pairs (get_syndrome_pseudo (code s)).1 m (0, code s)
           = Ok (w, c1)
         ∧ error_rate c1 = Ok p
         ∧ Planar.calc_phi
             (mkSim c1 (config_max_cardinality s) e m bi ami
                    (calls s ++
                     [ExtractSyndromes;
                      BuildGraph (map fst (get_syndrome_pseudo (code s)).1);
                      Match e (length (get_syndrome_pseudo (code s)).1);
                      Correct (map fst (get_syndrome_pseudo (code s)).1) m]))
           = Ok (phi, s')
         ∧ s' = mkSim c1 (config_max_cardinality s) e m bi ami
                      (calls s ++
                       [ExtractSyndromes;
                        BuildGraph (map fst (get_syndrome_pseudo (code s)).1);
                        Match e (length (get_syndrome_pseudo (code s)).1);
                        Correct (map fst (get_syndrome_pseudo (code s)).1) m;
                        EstimateFailure])).
Proof.
  split.
  - intros s'. unfold Toric.decode.
    destruct (get_syndrome (code (log s ExtractSyndromes))) as [plaqs stars] eqn:Hsyn.
    change (get_syndrome (code s)) with (get_syndrome (code (log s ExtractSyndromes))).
    rewrite Hsyn. cbn [fst snd].
    unfold Toric.match_syndromes, Toric.correct_matching.
    cbn [code log config_max_cardinality].
    split.
    + intros Hd.
      destruct (Toric.get_qubit_distances plaqs (size (code s))) as [e1|] eqn:He1;
        [|done]. cbn [bind] in Hd.
      destruct (Toric.matching_graph use_blossomv e1 _ _) as [m1|] eqn:Hm1; [|done].
      cbn [bind] in Hd.
      rewrite toric_correct_loop in Hd. cbn [code log] in Hd.
      destruct (toric_correct_pairs plaqs m1 (0, code s)) as [[w1 c1]|] eqn:Hc1;
        [|done].
      cbn [bind code log set_code config_max_cardinality] in Hd.
      destruct (Toric.get_qubit_distances stars (size c1)) as [e2|] eqn:He2; [|done].
      cbn [bind] in Hd.
      destruct (Toric.matching_graph use_blossomv e2 _ _) as [m2|] eqn:Hm2; [|done].
      cbn [bind] in Hd.
      rewrite toric_correct_loop in Hd. cbn [code log set_code] in Hd.
      destruct (toric_correct_pairs stars m2 (0, c1)) as [[w2 c2]|] eqn:Hc2; [|done].
      cbn [bind] in Hd. injection Hd as <-.
      exists e1, m1, w1, c1, e2, m2, w2, c2. repeat (split; [done|]).
      destruct s as [c0 cfg es ms bis amis cs].
      cbv [set_code log code config_max_cardinality self_edges self_matching
           boundary_info ancillas_matchingind calls].
      by rewrite <- !app_assoc.
    + intros (e1 & m1 & w1 & c1 & e2 & m2 & w2 & c2
              & He1 & Hm1 & Hc1 & He2 & Hm2 & Hc2 & ->).
      rewrite He1. cbn [bind]. rewrite Hm1. cbn [bind].
      rewrite toric_correct_loop. cbn [code log]. rewrite Hc1.
      cbn [bind code log set_code config_max_cardinality].
      rewrite He2. cbn [bind]. rewrite Hm2. cbn [bind].
      rewrite toric_correct_loop. cbn [code log set_code]. rewrite Hc2.
      cbn [bind]. f_equal.
      destruct s as [c0 cfg es ms bis amis cs].
      cbv [set_code log code config_max_cardinality self_edges self_matching
           boundary_info ancillas_matchingind calls].
      by rewrite <- !app_assoc.
  - intros phi s'. unfold Planar.decode.
    destruct (get_syndrome_pseudo (code (log s ExtractSyndromes)))
      as [plaqs stars] eqn:Hsyn.
    change (get_syndrome_pseudo (code s))
      with (get_syndrome_pseudo (code (log s ExtractSyndromes))).
    rewrite Hsyn. cbn [fst snd].
    unfold Planar.match_syndromes, Planar.correct_matching.
    split.
    + intros Hd.
      destruct (Planar.get_qubit_distances plaqs) as [[[e bi] ami]|] eqn:He; [|done].
      cbn [bind set_scratch log self_edges config_max_cardinality code] in Hd.
      destruct (Toric.matching_graph use_blossomv e _ _) as [m|] eqn:Hm; [|done].
      cbn [bind set_matching self_matching log set_scratch self_edges code
           config_max_cardinality boundary_info ancillas_matchingind calls] in Hd.
      rewrite planar_correct_loop in Hd.
      cbn [code log set_matching set_scratch] in Hd.
      destruct (planar_correct_pairs plaqs m (0, code s)) as [[w c1]|] eqn:Hc1;
        [|done].
      cbn [bind code set_code log self_edges self_matching boundary_info
           ancillas_matchingind calls config_max_cardinality] in Hd.
      destruct (error_rate c1) as [p|] eqn:Hp; [|done]. cbn [bind] in Hd.
      destruct s as [c0 cfg es ms bis amis cs].
      cbv [set_code log set_scratch set_matching code config_max_cardinality
           self_edges self_matching boundary_info ancillas_matchingind calls]
        in Hd, Hm, Hc1 |- *.
      rewrite <- !app_assoc in Hd. cbn [app] in Hd.
      exists e, bi, ami, m, w, c1, p. repeat (split; [done|]).
      apply calc_phi_state in Hd as ->.
      cbv [log code config_max_cardinality self_edges self_matching boundary_info
           ancillas_matchingind calls].
      by rewrite <- !app_assoc.
    + intros (e & bi & ami & m & w & c1 & p & He & Hm & Hc1 & Hp & Hphi & _).
      rewrite He.
      cbn [bind set_scratch log self_edges config_max_cardinality code].
      rewrite Hm.
      cbn [bind set_matching self_matching log set_scratch self_edges code
           config_max_cardinality boundary_info ancillas_matchingind calls].
      rewrite planar_correct_loop.
      cbn [code log set_matching set_scratch]. rewrite Hc1.
      cbn [bind code set_code log self_edges self_matching boundary_info
           ancillas_matchingind calls config_max_cardinality].
      rewrite Hp. cbn [bind]. rewrite <- Hphi. f_equal.
      destruct s as [c0 cfg es ms bis amis cs].
      cbv [set_code log set_scratch set_matching code config_max_cardinality
           self_edges self_matching boundary_info ancillas_matchingind calls].
      by rewrite <- !app_assoc.
Qed.

(** A toric pass on the ring and a planar pass on the distance-5 row. *)
Lemma decode_pass_steps_witness :
  (∃ s' : Sim DemoCode,
     Toric.decode (demo_sim demo_toric) false = Ok s'
     ∧ performs [site 0; site 3] (calls s')
     ∧ performs [zsite 1 1; zsite 3 1] (calls s')
     ∧ demo_flipped (code s') = [(5, 0); (3, 0); (1, 0); (2, 1)])
  ∧ (∃ (phi : nat) (s' : Sim DemoCode),
       Planar.decode (demo_sim demo_planar) false = Ok (phi, s')
       ∧ calls s' = [ExtractSyndromes; BuildGraph [site 1];
                     Match [((0%nat, 1%nat), 1)] 1;
                     Correct [site 1] [(0, 1)]; EstimateFailure]
       ∧ demo_flipped (code s') = [(1, 0)]).
Proof.
  destruct (decode_pass_steps (demo_sim demo_toric) false) as [HT _].
  destruct (decode_pass_steps (demo_sim demo_planar) false) as [_ HP].
  split.
  - destruct (Toric.decode (demo_sim demo_toric) false) as [s'|e] eqn:Hd;
      [|vm_compute in Hd; discriminate Hd].
    destruct (proj1 (HT s') eq_refl)
      as (e1 & m1 & w1 & c1 & e2 & m2 & w2 & c2 & _ & _ & _ & _ & _ & _ & Hs).
    exists s'. split; [reflexivity|].
    assert (Hcalls : calls s' = [ExtractSyndromes; BuildGraph [site 0; site 3];
              Match e1 2; Correct [site 0; site 3] m1;
              BuildGraph [zsite 1 1; zsite 3 1]; Match e2 2;
              Correct [zsite 1 1; zsite 3 1] m2]) by (rewrite Hs; reflexivity).
    rewrite Hcalls. split; [|split].
    + exists [ExtractSyndromes],
        [BuildGraph [zsite 1 1; zsite 3 1]; Match e2 2;
         Correct [zsite 1 1; zsite 3 1] m2], e1, m1. reflexivity.
    + exists [ExtractSyndromes; BuildGraph [site 0; site 3]; Match e1 2;
              Correct [site 0; site 3] m1], [], e2, m2. reflexivity.
    + vm_compute in Hd. injection Hd as <-. reflexivity.
  - destruct (Planar.decode (demo_sim demo_planar) false) as [[phi s']|e] eqn:Hd;
      [|vm_compute in Hd; discriminate Hd].
    destruct (proj1 (HP phi s') eq_refl) as (e1 & bi & ami & m & w & c1 & p & _).
    exists phi, s'. split; [reflexivity|].
    vm_compute in Hd. injection Hd as _ <-. split; reflexivity.
Defined.

(** C1 as stated fails for the planar decoder.  On the distance-5 row with
    a plaquette syndrome at x = 1 and a star syndrome at (1.5, 0.5), the
    pass returns after five calls, none of them for the star. *)
Lemma planar_decode_skips_stars_counterexample :
  ∃ (phi : nat) (s' : Sim DemoCode),
    Planar.decode (demo_sim demo_planar) false = Ok (phi, s')
    ∧ map fst (get_syndrome_pseudo demo_planar).2 = [zsite 3 1]
    ∧ calls s' = [ExtractSyndromes; BuildGraph [site 1];
                  Match [((0%nat, 1%nat), 1)] 1; Correct [site 1] [(0, 1)];
                  EstimateFailure]
    ∧ ¬ performs [zsite 3 1] (calls s').
Proof.
  eexists _, _. split; [vm_compute; reflexivity|]. split; [reflexivity|].
  split; [reflexivity|].
  intros (pre & post & e & m & Heq). cbn [calls] in Heq.
  assert (Hin : BuildGraph [zsite 3 1] ∈ pre ++
            [BuildGraph [zsite 3 1]; Match e (length [zsite 3 1]);
             Correct [zsite 3 1] m] ++ post) by set_solver.
  rewrite <- Heq in Hin.
  repeat (apply elem_of_cons in Hin as [Hin|Hin]; [discriminate Hin|]).
  by apply elem_of_nil in Hin.
Qed.

(** ** Failure estimator *)

Lemma select_hubs_from (bn : list Qubit) (s0 t0 : option Qubit) :
  foldl (fun '(s, t) elem =>
    if decide ((loc elem).1 = 0 ∧ (loc elem).2 = 0) then (Some elem, t)
    else if decide ((loc elem).2 = 0) then (s, Some elem)
    else (s, t)) (s0, t0) bn
  = (match last (filter is_origin bn) with Some q => Some q | None => s0 end,
     match last (filter is_opposite bn) with Some q => Some q | None => t0 end).
Proof.
  revert s0 t0. induction bn as [|q bn IH]; intros s0 t0; [done|].
  cbn [foldl].
  destruct (decide ((loc q).1 = 0 ∧ (loc q).2 = 0)) as [Ho|Ho].
  - rewrite IH. rewrite (filter_cons_True is_origin) by done.
    rewrite (filter_cons_False is_opposite) by (unfold is_opposite, is_origin; tauto).
    rewrite last_cons. by destruct (last (filter is_origin bn)).
  - destruct (decide ((loc q).2 = 0)) as [Hy|Hy]; rewrite IH.
    + rewrite (filter_cons_False is_origin) by done.
      rewrite (filter_cons_True is_opposite) by done.
      rewrite last_cons. by destruct (last (filter is_opposite bn)).
    + rewrite (filter_cons_False is_origin) by done.
      rewrite (filter_cons_False is_opposite)
        by (unfold is_opposite, is_origin; tauto).
      done.
Qed.

Lemma select_hubs_last (bn : list Qubit) :
  Planar.select_hubs bn = (last (filter is_origin bn), last (filter is_opposite bn)).
Proof.
  unfold Planar.select_hubs. rewrite select_hubs_from.
  by destruct (last (filter is_origin bn)), (last (filter is_opposite bn)).
Qed.

Lemma structure_step_nodes (bn0 : list Qubit) (e : DQEdge) :
  (if decide (qubit_type (nodes e).2 = "pA")
   then Planar.set_add (if decide (qubit_type (nodes e).1 = "pA")
                        then Planar.set_add bn0 (nodes e).1 else bn0) (nodes e).2
   else (if decide (qubit_type (nodes e).1 = "pA")
         then Planar.set_add bn0 (nodes e).1 else bn0))
  = foldl Planar.set_add bn0 (boundary_ends e).
Proof.
  unfold boundary_ends. rewrite !filter_cons, filter_nil. cbv beta.
  by destruct (decide (qubit_type (nodes e).1 = "pA")),
              (decide (qubit_type (nodes e).2 = "pA")).
Qed.

Lemma structure_graph_from `{Lattice L} (c : L) (edges : list DQEdge)
    (G0 : Graph) (bn0 : list Qubit) :
  for_each edges (fun edge '(G, boundary_nodes) =>
    if decide (edge_state_type edge = "x") then
      let boundary_nodes :=
        if decide (qubit_type (nodes edge).1 = "pA")
        then Planar.set_add boundary_nodes (nodes edge).1 else boundary_nodes in
      let boundary_nodes :=
        if decide (qubit_type (nodes edge).2 = "pA")
        then Planar.set_add boundary_nodes (nodes edge).2 else boundary_nodes in
      do p <- error_rate c;
      do weight <- log_odds_weight p;
      Ok (G ++ [((nodes edge).1, (nodes edge).2, weight)], boundary_nodes)
    else Ok (G, boundary_nodes)) (G0, bn0)
  = if decide (x_edges edges = []) then Ok (G0, bn0)
    else match p_bitflip c with
         | None => Raise KeyError
         | Some p =>
             if Qeq_bool (1 - p) 0 then Raise ZeroDivisionError
             else Ok (G0 ++ x_graph p edges,
                      foldl Planar.set_add bn0
                            (concat (map boundary_ends (x_edges edges))))
         end.
Proof.
  match goal with |- for_each _ ?b _ = _ => set (body := b) end.
  revert G0 bn0. induction edges as [|e edges IH]; intros G0 bn0; [done|].
  cbn [for_each].
  assert (Hstep : body e (G0, bn0)
            = if decide (edge_state_type e = "x")
              then match p_bitflip c with
                   | None => Raise KeyError
                   | Some p =>
                       if Qeq_bool (1 - p) 0 then Raise ZeroDivisionError
                       else Ok (G0 ++ [((nodes e).1, (nodes e).2, w_log_odds p)],
                                foldl Planar.set_add bn0 (boundary_ends e))
                   end
              else Ok (G0, bn0)).
  { unfold body. cbv beta iota zeta.
    destruct (decide (edge_state_type e = "x")); [|done].
    rewrite structure_step_nodes. unfold error_rate, log_odds_weight.
    destruct (p_bitflip c) as [p|]; [|done]. cbn [bind].
    by destruct (Qeq_bool (1 - p) 0). }
  rewrite Hstep. unfold x_graph, x_edges.
  destruct (decide (edge_state_type e = "x")) as [Hx|Hx].
  - rewrite (filter_cons_True (fun e => edge_state_type e = "x")) by done.
    rewrite (decide_False (P := _ :: _ = [])) by done.
    destruct (p_bitflip c) as [p|] eqn:Hp; [|done].
    destruct (Qeq_bool (1 - p) 0) eqn:Hq; [done|].
    rewrite IH. unfold x_graph, x_edges. rewrite ?Hp, ?Hq.
    cbn [map concat]. rewrite foldl_app, <- app_assoc.
    destruct (decide (filter _ edges = [])) as [-> |Hne]; [|done].
    cbn [map concat foldl]. by rewrite ?app_nil_r.
  - rewrite (filter_cons_False (fun e => edge_state_type e = "x")) by done.
    by rewrite IH.
Qed.

Lemma boundary_nodes_of_nil (edges : list DQEdge) :
  x_edges edges = [] → boundary_nodes_of edges = [].
Proof. unfold boundary_nodes_of. by intros ->. Qed.

Lemma structure_graph_eq `{Lattice L} (c : L) (edges : list DQEdge) :
  Planar.structure_graph c edges
  = if decide (x_edges edges = []) then Ok ([], boundary_nodes_of edges)
    else match p_bitflip c with
         | None => Raise KeyError
         | Some p =>
             if Qeq_bool (1 - p) 0 then Raise ZeroDivisionError
             else Ok (x_graph p edges, boundary_nodes_of edges)
         end.
Proof.
  unfold Planar.structure_graph. rewrite structure_graph_from.
  destruct (decide (x_edges edges = [])) as [Hnil|Hne]; [|done].
  by rewrite boundary_nodes_of_nil.
Qed.

Lemma for_each_guarded {A B : Type} (P : A → Prop) `{∀ x, Decision (P x)}
    (f : A → list B) (e : exn) (xs : list A)
    (body : A → list B → res (list B)) (s : list B) :
  (∀ x s, body x s = if decide (P x) then Ok (s ++ f x) else Raise e) →
  for_each xs body s
  = if decide (Forall P xs) then Ok (s ++ concat (map f xs)) else Raise e.
Proof.
  intros Hbody. revert s. induction xs as [|x xs IH]; intros s.
  - cbn [for_each map concat]. rewrite decide_True by constructor.
    by rewrite app_nil_r.
  - cbn [for_each]. rewrite Hbody. destruct (decide (P x)) as [Hx|Hx].
    + rewrite IH. destruct (decide (Forall P xs)) as [Hxs|Hxs].
      * rewrite decide_True by (by constructor). cbn [map concat].
        by rewrite <- app_assoc.
      * rewrite decide_False; [done|]. intros Hall. by inversion Hall.
    + rewrite decide_False; [done|]. intros Hall. by inversion Hall.
Qed.

Lemma connect_sides_eq (size : Z * Z) (boundary_nodes : list Qubit) (G : Graph) :
  Planar.connect_sides size boundary_nodes G
  = if decide (sides_consistent size boundary_nodes)
    then Ok (G ++ side_edges boundary_nodes)
    else Raise AssertionError.
Proof.
  unfold Planar.connect_sides.
  rewrite (for_each_guarded
             (fun elem1 => Forall (side_ok size elem1) boundary_nodes)
             (fun elem1 => concat (map (fun elem2 =>
                if decide (elem1 ≠ elem2 ∧ same_side elem1 elem2)
                then [(elem1, elem2, w_zero)] else []) boundary_nodes))
             AssertionError).
  - unfold sides_consistent, side_edges.
    by destruct (decide (Forall _ boundary_nodes)).
  - intros elem1 G1.
    apply (for_each_guarded (side_ok size elem1)
             (fun elem2 => if decide (elem1 ≠ elem2 ∧ same_side elem1 elem2)
                           then [(elem1, elem2, w_zero)] else [])).
    intros elem2 G2. unfold side_ok, same_side, Planar.py_assert. cbv zeta.
    destruct (decide (elem1 ≠ elem2)) as [Hne|Heq].
    + destruct (decide (((loc elem1).1 = 0 ∧ (loc elem2).1 = 0)
                        ∨ ((loc elem1).1 ≠ 0 ∧ (loc elem2).1 ≠ 0))) as [Hs|Hs].
      * rewrite (decide_True (P := elem1 ≠ elem2 ∧ _)) by done.
        destruct (decide ((loc elem1).1 ≠ 0 ∧ (loc elem2).1 ≠ 0)) as [Hnz|Hz].
        -- destruct (decide ((loc elem1).1 = 2 * size.1
                             ∧ (loc elem2).1 = 2 * size.1)) as [Hat|Hat].
           ++ cbn [bind]. rewrite (decide_True (P := (loc elem1).1 = (loc elem2).1))
                by lia. cbn [bind]. by rewrite decide_True by done.
           ++ cbn [bind]. by rewrite decide_False by tauto.
        -- cbn [bind]. rewrite (decide_True (P := (loc elem1).1 = (loc elem2).1))
             by lia. cbn [bind]. by rewrite decide_True by tauto.
      * rewrite (decide_False (P := elem1 ≠ elem2 ∧ _)) by tauto.
        rewrite decide_True by tauto. by rewrite app_nil_r.
    + rewrite (decide_False (P := elem1 ≠ elem2 ∧ _)) by tauto.
      rewrite decide_True by tauto. by rewrite app_nil_r.
Qed.

(** C8 (as the code has it).  The estimator never tests how many boundary
    nodes qualify as a hub, and has no ambiguity error.  Its outcome is
    settled stage by stage.  If there is an x edge and the error rate is
    missing it raises [KeyError], and if the rate is 1 [ZeroDivisionError].
    Otherwise, if building the shortcut edges raises, it raises that error.
    Otherwise, if two distinct boundary nodes off x = 0 are not both at
    x = size, it raises [AssertionError].  Otherwise it takes, of the nodes
    at (0, 0), the last one the boundary set yields as the origin and, of
    the other nodes with y = 0, the last one as the opposite hub; if either
    hub has no candidate it raises [UnboundLocalError].  Otherwise it runs
    the shortest-path search between the two hubs on the graph of the x
    edges, the shortcut edges and the side-joining edges, and returns the
    length found or raises the error of the search. *)
Theorem calc_phi_outcome `{Lattice L, Services} (s : Sim L) :
  let edges := data_qubit_edges_x (code s) in
  let boundary_nodes := set_iter (boundary_nodes_of edges) in
  let search (G0 : Graph) : res (PathLength * Sim L) :=
    match Planar.shortcuts (boundary_info s) (ancillas_matchingind s) edges
                           (self_matching s) G0 with
    | Raise e => Raise e
    | Ok G1 =>
        if decide (sides_consistent (size (code s)) boundary_nodes) then
          match last (filter is_origin boundary_nodes),
                last (filter is_opposite boundary_nodes) with
          | Some s0, Some t0 =>
              match single_source_dijkstra
                      (G1 ++ side_edges boundary_nodes) s0 t0 with
              | Ok length => Ok (length, log s EstimateFailure)
              | Raise e => Raise e
              end
          | _, _ => Raise UnboundLocalError
          end
        else Raise AssertionError
    end in
  Planar.calc_phi s
  = if decide (x_edges edges = []) then search []
    else match p_bitflip (code s) with
         | None => Raise KeyError
         | Some p =>
             if Qeq_bool (1 - p) 0 then Raise ZeroDivisionError
             else search (x_graph p edges)
         end.
Proof.
  intros edges boundary_nodes search.
  assert (Hrest : ∀ G0 : Graph,
    (do G <- Planar.shortcuts (boundary_info s) (ancillas_matchingind s) edges
                              (self_matching s) G0;
     do G <- Planar.connect_sides (size (code s))
                                  (set_iter (boundary_nodes_of edges)) G;
     match Planar.select_hubs (set_iter (boundary_nodes_of edges)) with
     | (Some s0, Some t0) =>
         do length <- single_source_dijkstra G s0 t0;
         Ok (length, log s EstimateFailure)
     | _ => Raise UnboundLocalError
     end) = search G0).
  { intros G0. unfold search.
    destruct (Planar.shortcuts _ _ _ _ _) as [G1|]; [|done]. cbn [bind].
    rewrite connect_sides_eq. fold boundary_nodes.
    destruct (decide (sides_consistent _ _)); [|done]. cbn [bind].
    rewrite select_hubs_last.
    destruct (last (filter is_origin boundary_nodes)) as [src|]; [|done].
    destruct (last (filter is_opposite boundary_nodes)) as [tgt|]; [|done].
    by destruct (single_source_dijkstra _ src tgt). }
  unfold Planar.calc_phi. cbn [code log boundary_info ancillas_matchingind
    self_matching]. fold edges.
  rewrite structure_graph_eq.
  destruct (decide (x_edges edges = [])); [exact (Hrest [])|].
  destruct (p_bitflip (code s)) as [p|]; [|done].
  destruct (Qeq_bool (1 - p) 0); [done|]. exact (Hrest (x_graph p edges)).
Qed.

(** C8 as stated fails.  With two layers of the distance-5 row, two
    boundary nodes sit at (0, 0) and two at (5, 0); the estimator raises
    nothing and returns a path length, 5 units. *)
Lemma calc_phi_ambiguous_hubs_counterexample :
  ∃ (G : Graph) (bn : list Qubit),
    Planar.structure_graph demo_layers (demo_edges demo_layers) = Ok (G, bn)
    ∧ filter is_origin (set_iter bn) = [lbsite 0 0; lbsite 0 1]
    ∧ filter is_opposite (set_iter bn) = [lbsite 5 0; lbsite 5 1]
    ∧ (∃ s', Planar.calc_phi (demo_sim demo_layers) = Ok (5%nat, s'))
    ∧ (∃ s', Planar.decode (demo_sim demo_layers) false = Ok (5%nat, s')).
Proof.
  eexists _, _. split; [vm_compute; reflexivity|].
  split; [vm_compute; reflexivity|]. split; [vm_compute; reflexivity|].
  split; eexists; vm_compute; reflexivity.
Qed.

(** The other ways out of the estimator, each on a lattice of its own: a
    wrong declared size fails the assertion although every hub has two
    candidates; a row cut in the middle has one candidate for each hub and
    no path between them; an error rate of 1 stops the first edge weight,
    and so does a missing rate. *)
Example calc_phi_failure_examples :
  Planar.calc_phi (demo_sim demo_short) = Raise AssertionError
  ∧ Planar.calc_phi (demo_sim demo_cut) = Raise NetworkXNoPath
  ∧ @Planar.calc_phi DemoCode (demo_lattice_at (Some 1%Q)) demo_services
      (demo_sim demo_planar) = Raise ZeroDivisionError
  ∧ @Planar.calc_phi DemoCode (demo_lattice_at None) demo_services
      (demo_sim demo_planar) = Raise KeyError.
Proof. repeat split; vm_compute; reflexivity. Qed.

Lemma has_real_endpoint_ok (bi : list string) (node0 node1 : Z) (t0 t1 : string) :
  py_getitem bi node0 = Ok t0 → py_getitem bi node1 = Ok t1 →
  Planar.has_real_endpoint bi node0 node1
  = Ok (bool_decide (t0 = EmptyString ∨ t1 = EmptyString)).
Proof.
  intros H0 H1. unfold Planar.has_real_endpoint. rewrite H0. cbn [bind].
  destruct (decide (t0 = EmptyString)) as [->|Hn].
  - by rewrite bool_decide_eq_true_2 by (by left).
  - rewrite H1. cbn [bind]. f_equal. apply bool_decide_ext. tauto.
Qed.

Lemma pair_shortcuts_ok (ami : list (option Qubit)) (edges : list DQEdge)
    (node0 node1 : Z) (q0 q1 : Qubit) (G : Graph) :
  Planar.matchingind ami node0 = Ok q0 → Planar.matchingind ami node1 = Ok q1 →
  Planar.pair_shortcuts ami edges node0 node1 G = Ok (G ++ shortcut_edges q0 q1 edges).
Proof.
  intros H0 H1. unfold Planar.pair_shortcuts, shortcut_edges.
  rewrite H0, H1. cbn [bind].
  apply for_each_append. intros dq_edge G1 _.
  cbn [for_each map concat]. rewrite H0. cbn [bind].
  destruct (decide (2 * Planar.get_weight q0 (nodes dq_edge).1 < _));
    rewrite ?H0; cbn [bind];
    destruct (decide (2 * Planar.get_weight q0 (nodes dq_edge).2 < _));
    rewrite ?H1; cbn [bind];
    destruct (decide (2 * Planar.get_weight q1 (nodes dq_edge).1 < _));
    rewrite ?H1; cbn [bind];
    destruct (decide (2 * Planar.get_weight q1 (nodes dq_edge).2 < _));
    by rewrite ?app_nil_r, <- ?app_assoc.
Qed.

(** C9 (as the code has it).  Wherever a matched pair stands in the
    matching, it adds its zero-weight shortcut edges (from each of its two
    sites to every end node of a data-qubit edge closer to that site than
    half the distance between the two) exactly when at least one of its two
    nodes carries no boundary tag, that is, is a real site; a pair of two
    boundary nodes adds none. *)
Theorem shortcuts_for_real_endpoint (bi : list string) (ami : list (option Qubit))
    (edges : list DQEdge) (m1 m2 : list (Z * Z)) (node0 node1 : Z)
    (t0 t1 : string) (q0 q1 : Qubit) (G : Graph) :
  py_getitem bi node0 = Ok t0 → py_getitem bi node1 = Ok t1 →
  Planar.matchingind ami node0 = Ok q0 → Planar.matchingind ami node1 = Ok q1 →
  Planar.shortcuts bi ami edges (m1 ++ (node0, node1) :: m2) G
  = do G1 <- Planar.shortcuts bi ami edges m1 G;
    Planar.shortcuts bi ami edges m2
      (G1 ++ if decide (t0 = EmptyString ∨ t1 = EmptyString)
             then shortcut_edges q0 q1 edges else []).
Proof.
  intros Hb0 Hb1 H0 H1. unfold Planar.shortcuts. rewrite for_each_app.
  destruct (for_each m1 _ G) as [G1|]; [|done]. cbn [bind for_each].
  rewrite (has_real_endpoint_ok bi node0 node1 t0 t1 Hb0 Hb1). cbn [bind].
  destruct (decide (t0 = EmptyString ∨ t1 = EmptyString)) as [Hreal|Hreal].
  - rewrite bool_decide_eq_true_2 by done.
    by rewrite (pair_shortcuts_ok ami edges node0 node1 q0 q1 G1 H0 H1).
  - rewrite bool_decide_eq_false_2 by done. by rewrite app_nil_r.
Qed.

(** The distance-10 row with syndromes at x = 4 and x = 7, matched with
    each other, and their two boundary nodes matched with each other. *)
Lemma shortcuts_for_real_endpoint_witness :
  let tuples := (demo_syndrome_pseudo demo_wide).1 in
  let bi := planar_boundary_info tuples in
  let ami := planar_matchingind tuples in
  let edges := demo_edges demo_wide in
  (py_getitem bi 0 = Ok EmptyString ∧ py_getitem bi 1 = Ok EmptyString
   ∧ Planar.matchingind ami 0 = Ok (lsite 4 0)
   ∧ Planar.matchingind ami 1 = Ok (lsite 7 0))
  ∧ Planar.shortcuts bi ami edges [(0, 1); (2, 3)] []
    = Planar.shortcuts bi ami edges [(2, 3)]
        (shortcut_edges (lsite 4 0) (lsite 7 0) edges).
Proof.
  intros tuples bi ami edges.
  assert (Hb0 : py_getitem bi 0 = Ok EmptyString) by (vm_compute; reflexivity).
  assert (Hb1 : py_getitem bi 1 = Ok EmptyString) by (vm_compute; reflexivity).
  assert (H0 : Planar.matchingind ami 0 = Ok (lsite 4 0)) by (vm_compute; reflexivity).
  assert (H1 : Planar.matchingind ami 1 = Ok (lsite 7 0)) by (vm_compute; reflexivity).
  split; [done|].
  exact (shortcuts_for_real_endpoint bi ami edges [] [(2, 3)] 0 1 _ _ _ _ []
           Hb0 Hb1 H0 H1).
Defined.

(** C9 as stated fails both ways.  On the distance-10 row with syndromes
    at x = 4 and x = 7, the pair (0, 1) of the two real sites has no
    boundary node and yet adds shortcut edges, such as the one from x = 4
    to x = 3; the pair (2, 3) of the two boundary nodes adds none, although
    the node at x = 1 is closer to the boundary at x = 0 than half the
    distance 10 between the two boundaries. *)
Lemma shortcuts_counterexample :
  let tuples := (demo_syndrome_pseudo demo_wide).1 in
  let edges := demo_edges demo_wide in
  ∃ (es : list WEdge) (bi : list string) (ami : list (option Qubit)),
    Planar.get_qubit_distances tuples = Ok (es, bi, ami)
    ∧ bi = [EmptyString; EmptyString; "L"; "R"]%string
    ∧ Planar.shortcuts bi ami edges [(0, 1)] []
      = Ok (shortcut_edges (lsite 4 0) (lsite 7 0) edges)
    ∧ (lsite 4 0, lsite 3 0, w_zero) ∈ shortcut_edges (lsite 4 0) (lsite 7 0) edges
    ∧ Planar.shortcuts bi ami edges [(2, 3)] [] = Ok []
    ∧ 2 * Planar.get_weight (lbsite 0 0) (lsite 1 0)
      < Planar.get_weight (lbsite 0 0) (lbsite 10 0).
Proof.
  intros tuples edges. eexists _, _, _.
  split; [vm_compute; reflexivity|]. split; [reflexivity|].
  split; [vm_compute; reflexivity|]. split.
  - vm_compute. apply list_elem_of_In. simpl. tauto.
  - split; [vm_compute; reflexivity|]. vm_compute. reflexivity.
Qed.

(** ** Where the toric walks end *)

Lemma twice_mod (k P : Z) : P ≠ 0 → (2 * (k mod P) - 2 * k) mod (2 * P) = 0.
Proof.
  intros HP. pose proof (Z.div_mod k P HP) as Hk.
  replace (2 * (k mod P) - 2 * k) with (- (k / P) * (2 * P)) by lia.
  apply Z_mod_mult.
Qed.

(** For two sites a whole number of units apart, the x walk, issued from
    the second site, ends on the x coordinate of the first, and the y walk,
    issued from the first site, ends on the y coordinate of the second, both
    modulo the period. *)
Lemma toric_walk_reaches_target (q0 q1 : Qubit) (Px Py kx ky dx dy : Z) (xd yd : Key) :
  Px ≠ 0 → Py ≠ 0 →
  (loc q0).1 - (loc q1).1 = 2 * kx → (loc q0).2 - (loc q1).2 = 2 * ky →
  Toric._walk_direction q0 q1 (Px, Py) = Ok (dx, dy, xd, yd) →
  ((loc q1).1 + 2 * xd.1 * dx - (loc q0).1) mod (2 * Px) = 0
  ∧ ((loc q0).2 + 2 * yd.2 * dy - (loc q1).2) mod (2 * Py) = 0.
Proof.
  intros Hx Hy Hkx Hky. unfold Toric._walk_direction, py_mod, py_int.
  destruct (loc q0) as [x0 y0], (loc q1) as [x1 y1]. cbn [fst snd] in *.
  rewrite !decide_False by done. cbn [bind].
  replace (x0 - x1) with (kx * 2) by lia. replace (x1 - x0) with (- kx * 2) by lia.
  replace (y0 - y1) with (ky * 2) by lia. replace (y1 - y0) with (- ky * 2) by lia.
  rewrite !Z.quot_mul by lia.
  pose proof (twice_mod kx Px Hx) as Hx0. pose proof (twice_mod (- kx) Px Hx) as Hx1.
  pose proof (twice_mod ky Py Hy) as Hy0. pose proof (twice_mod (- ky) Py Hy) as Hy1.
  destruct (decide (kx mod Px < - kx mod Px)), (decide (ky mod Py < - ky mod Py));
    intros [= <- <- <- <-]; cbn [fst snd]; split.
  all: match goal with
       | |- ?e mod ?m = 0 =>
           first [ replace e with (2 * (kx mod Px) - 2 * kx) by lia; assumption
                 | replace e with (- (2 * (- kx mod Px) - 2 * - kx)) by lia;
                   apply Z.mod_opp_l_z; [lia|assumption]
                 | replace e with (2 * (- ky mod Py) - 2 * - ky) by lia; assumption
                 | replace e with (- (2 * (ky mod Py) - 2 * ky)) by lia;
                   apply Z.mod_opp_l_z; [lia|assumption] ]
       end.
Qed.

(** * Further properties *)

(** ** Truncation and wrapped distances *)

Lemma py_int_opp (d : Z) : py_int (- d) = - py_int d.
Proof. unfold py_int. by rewrite Z.quot_opp_l. Qed.

Lemma py_int_abs (d : Z) : py_int (Z.abs d) = Z.abs (py_int d).
Proof. unfold py_int. by rewrite <- Z.quot_abs. Qed.

Lemma py_int_nonneg (d : Z) : 0 ≤ d → 0 ≤ py_int d.
Proof. intros Hd. unfold py_int. apply Z.quot_pos; lia. Qed.

Lemma mod_opp_cases (d P : Z) :
  P ≠ 0 →
  (d mod P = 0 ∧ (- d) mod P = 0) ∨ (d mod P ≠ 0 ∧ (- d) mod P = P - d mod P).
Proof.
  intros HP. destruct (decide (d mod P = 0)) as [H0|H0].
  - left. split; [done|]. by apply Z.mod_opp_l_z.
  - right. split; [done|]. by apply Z.mod_opp_l_nz.
Qed.

Lemma wrapped_opp (d P : Z) : P ≠ 0 → wrapped (- d) P = wrapped d P.
Proof.
  intros HP. unfold wrapped.
  destruct (mod_opp_cases d P HP) as [[H0 H1]|[H0 H1]]; rewrite H1; lia.
Qed.

Lemma wrapped_bounds (d P : Z) : 0 < P → 0 ≤ wrapped d P ∧ 2 * wrapped d P ≤ P.
Proof.
  intros HP. unfold wrapped. pose proof (Z.mod_pos_bound d P HP). lia.
Qed.

Lemma wrapped_min_opp (d P : Z) :
  0 < P → Z.min (d mod P) ((- d) mod P) = wrapped d P.
Proof.
  intros HP. unfold wrapped. pose proof (Z.mod_pos_bound d P HP).
  destruct (mod_opp_cases d P) as [[H0 H1]|[H0 H1]]; [lia| |]; rewrite H1; lia.
Qed.

(** ** Toric distance graph, further *)

(** X1. The toric weight of a pair of sites does not depend on their
    order, whatever the lattice size: with a zero period both orders raise
    the same error, otherwise both give the same weight. *)
Theorem toric_pair_weight_symmetric (size : Z * Z) (q0 q1 : Qubit) :
  Toric.pair_weight size q0 q1 = Toric.pair_weight size q1 q0.
Proof.
  unfold Toric.pair_weight, py_mod. destruct size as [Px Py].
  destruct (loc q0) as [x0 y0], (loc q1) as [x1 y1]. cbn [fst snd].
  destruct (decide (Px = 0)) as [|Hx]; [done|].
  destruct (decide (Py = 0)) as [|Hy]; [done|]. cbn [bind]. f_equal.
  replace (x1 - x0) with (- (x0 - x1)) by lia.
  replace (y1 - y0) with (- (y0 - y1)) by lia.
  rewrite !py_int_opp.
  pose proof (wrapped_opp (py_int (x0 - x1)) Px Hx) as Wx.
  pose proof (wrapped_opp (py_int (y0 - y1)) Py Hy) as Wy.
  unfold wrapped in Wx, Wy. lia.
Qed.

(** X2. On a lattice with positive periods every edge the toric builder
    returns joins two positions [i < j] of the site list, and its weight
    lies between the layer difference of the two sites and that difference
    plus half the sum of the periods; in particular it is never negative. *)
Theorem toric_edge_weights_bounded (qubits : list Qubit) (Px Py : Z)
    (edges : list WEdge) (i j : nat) (w : Z) :
  0 < Px → 0 < Py →
  Toric.get_qubit_distances qubits (Px, Py) = Ok edges →
  ((i, j), w) ∈ edges →
  (i < j < length qubits)%nat
  ∧ ∃ qa qb, qubits !! i = Some qa ∧ qubits !! j = Some qb
      ∧ 0 ≤ Z.abs (z qa - z qb) ≤ w
      ∧ 2 * (w - Z.abs (z qa - z qb)) ≤ Px + Py.
Proof.
  intros Hx Hy Heq Hin.
  rewrite toric_get_qubit_distances_eq in Heq by lia. injection Heq as <-.
  apply elem_of_pairs_from in Hin as (a & b & qa & qb & -> & -> & Hlt & Ha & Hb & ->).
  simpl. split; [split; [done|by eapply lookup_lt_Some]|].
  exists qa, qb. split; [done|]. split; [done|].
  unfold toric_distance. cbn [fst snd].
  pose proof (wrapped_bounds (py_int ((loc qa).1 - (loc qb).1)) Px Hx).
  pose proof (wrapped_bounds (py_int ((loc qa).2 - (loc qb).2)) Py Hy). lia.
Qed.

Lemma toric_edge_weights_bounded_witness :
  (0 < 6 ∧ 0 < 6)
  ∧ Toric.get_qubit_distances [site 0; site 3] (6, 6) = Ok [((0%nat, 1%nat), 3)]
  ∧ 0 ≤ 3 ∧ 2 * 3 ≤ 6 + 6.
Proof.
  assert (Heq : Toric.get_qubit_distances [site 0; site 3] (6, 6)
                = Ok [((0%nat, 1%nat), 3)]) by reflexivity.
  split; [lia|]. split; [exact Heq|].
  destruct (toric_edge_weights_bounded [site 0; site 3] 6 6 _ 0 1 3
              ltac:(lia) ltac:(lia) Heq ltac:(by apply list_elem_of_singleton))
    as (_ & qa & qb & Ha & Hb & Hw & Hbound).
  injection Ha as <-. injection Hb as <-. simpl in Hw, Hbound. lia.
Defined.

(** X3. What the toric builder does on every input: at most one site gives
    the empty edge list, whatever the size; two or more sites on a lattice
    with a zero period raise [ZeroDivisionError]; otherwise the edges of
    all pairs are returned. *)
Theorem toric_get_qubit_distances_cases (qubits : list Qubit) (Px Py : Z) :
  Toric.get_qubit_distances qubits (Px, Py)
  = if decide (length qubits ≤ 1)%nat then Ok []
    else if decide (Px = 0 ∨ Py = 0) then Raise ZeroDivisionError
    else Ok (pairs_from (toric_distance (Px, Py)) 0 qubits).
Proof.
  destruct (decide (length qubits ≤ 1)%nat) as [Hn|Hn].
  - destruct qubits as [|q0 [|q1 r]]; [done|done|simpl in Hn; lia].
  - destruct (decide (Px = 0 ∨ Py = 0)) as [Hz|Hz].
    + destruct qubits as [|q0 [|q1 r]]; [simpl in Hn; lia|simpl in Hn; lia|].
      unfold Toric.get_qubit_distances, enumerate.
      rewrite removelast_cons_cons, enumerate_from_cons. cbn [for_each].
      cbn [drop Nat.add]. rewrite enumerate_from_cons. cbn [for_each].
      assert (Hw : Toric.pair_weight (Px, Py) q0 q1 = Raise ZeroDivisionError).
      { unfold Toric.pair_weight, py_mod.
        destruct (loc q0) as [x0 y0], (loc q1) as [x1 y1]. cbn [fst snd].
        destruct (decide (Px = 0)); [done|]. cbn [bind].
        destruct (decide (Py = 0)); [done|]. tauto. }
      by rewrite Hw.
    + apply toric_get_qubit_distances_eq; tauto.
Qed.

(** ** Walks and weights *)

Lemma toric_walk_direction_wrapped (q0 q1 : Qubit) (Px Py : Z) :
  0 < Px → 0 < Py →
  ∃ xd yd,
    Toric._walk_direction q0 q1 (Px, Py)
    = Ok (wrapped (py_int ((loc q0).1 - (loc q1).1)) Px,
          wrapped (py_int ((loc q0).2 - (loc q1).2)) Py, xd, yd).
Proof.
  intros Hx Hy. unfold Toric._walk_direction, py_mod.
  destruct (loc q0) as [x0 y0], (loc q1) as [x1 y1]. cbn [fst snd].
  rewrite !decide_False by lia. cbn [bind].
  replace (x1 - x0) with (- (x0 - x1)) by lia.
  replace (y1 - y0) with (- (y0 - y1)) by lia.
  rewrite !py_int_opp.
  rewrite <- (wrapped_min_opp (py_int (x0 - x1)) Px Hx).
  rewrite <- (wrapped_min_opp (py_int (y0 - y1)) Py Hy).
  destruct (decide (_ < _)) as [Hdx|Hdx], (decide (_ < _)) as [Hdy|Hdy];
    eexists _, _; repeat f_equal; lia.
Qed.

(** X4. On a lattice with positive periods the toric walk direction never
    raises, plans on each axis a number of steps between zero and half the
    period, and that number is the wrapped distance on the axis. *)
Theorem toric_walk_direction_bounds (q0 q1 : Qubit) (Px Py : Z) :
  0 < Px → 0 < Py →
  ∃ dx dy xd yd,
    Toric._walk_direction q0 q1 (Px, Py) = Ok (dx, dy, xd, yd)
    ∧ 0 ≤ dx ∧ 2 * dx ≤ Px ∧ 0 ≤ dy ∧ 2 * dy ≤ Py
    ∧ dx = wrapped (py_int ((loc q0).1 - (loc q1).1)) Px
    ∧ dy = wrapped (py_int ((loc q0).2 - (loc q1).2)) Py.
Proof.
  intros Hx Hy.
  destruct (toric_walk_direction_wrapped q0 q1 Px Py Hx Hy) as (xd & yd & Heq).
  pose proof (wrapped_bounds (py_int ((loc q0).1 - (loc q1).1)) Px Hx).
  pose proof (wrapped_bounds (py_int ((loc q0).2 - (loc q1).2)) Py Hy).
  eexists _, _, xd, yd. split; [exact Heq|]. repeat split; lia.
Qed.

Lemma toric_walk_direction_bounds_witness :
  (0 < 6 ∧ 0 < 6)
  ∧ ∃ dx dy xd yd,
      Toric._walk_direction (site 0) (site 5) (6, 6) = Ok (dx, dy, xd, yd)
      ∧ dx = 1 ∧ dy = 0.
Proof.
  split; [lia|].
  destruct (toric_walk_direction_bounds (site 0) (site 5) 6 6)
    as (dx & dy & xd & yd & Heq & _ & _ & _ & _ & Hdx & Hdy); [lia|lia|].
  exists dx, dy, xd, yd. split; [exact Heq|]. split.
  - rewrite Hdx. reflexivity.
  - rewrite Hdy. reflexivity.
Defined.

(** X5. On a lattice with positive periods, the weight a toric correction
    returns for a matched pair is the weight the distance-graph builder
    gives to the edge between the two sites. *)
Theorem toric_correction_weight_is_edge_weight `{Lattice L} (c c' : L)
    (aq0 aq1 : Qubit) (w : Z) :
  0 < (size c).1 → 0 < (size c).2 →
  Toric._correct_matched_qubits c aq0 aq1 = Ok (w, c') →
  Toric.pair_weight (size c) aq0 aq1 = Ok w.
Proof.
  intros Hx Hy. destruct (size c) as [Px Py] eqn:Hsize. cbn [fst snd] in *.
  unfold Toric._correct_matched_qubits, Toric.correct_matched_qubits_with.
  destruct (Toric.decode_layer_qubit c aq0) as [dq0|]; [|done].
  destruct (Toric.decode_layer_qubit c aq1) as [dq1|]; [|done]. cbn [bind].
  rewrite Hsize.
  destruct (toric_walk_direction_wrapped aq0 aq1 Px Py Hx Hy) as (xd & yd & ->).
  cbn [bind].
  destruct (Toric._walk_and_correct c dq0 _ yd) as [c1 xv].
  destruct (Toric._walk_and_correct c1 dq1 _ xd) as [c2 ?].
  intros [= <- <-]. rewrite toric_pair_weight_ok by lia. f_equal.
  unfold toric_distance. cbn [fst snd]. lia.
Qed.

Lemma toric_correction_weight_is_edge_weight_witness :
  (0 < (size demo_hole).1 ∧ 0 < (size demo_hole).2)
  ∧ Toric._correct_matched_qubits demo_hole (site 1) (site 3) = Ok (2, demo_hole)
  ∧ Toric.pair_weight (size demo_hole) (site 1) (site 3) = Ok 2.
Proof.
  assert (Hc : Toric._correct_matched_qubits demo_hole (site 1) (site 3)
               = Ok (2, demo_hole)) by (vm_compute; reflexivity).
  split; [simpl; lia|]. split; [exact Hc|].
  apply (toric_correction_weight_is_edge_weight demo_hole demo_hole); simpl;
    [lia|lia|exact Hc].
Defined.

(** X6. The planar walk direction never raises and ignores the lattice
    size.  It plans |int(x0 - x1)| and |int(y0 - y1)| steps, and for two
    sites a whole number of units apart the x walk, issued from the second
    site, ends on the x coordinate of the first, and the y walk, issued from
    the first site, ends on the y coordinate of the second. *)
Theorem planar_walk_direction_reaches (q0 q1 : Qubit) (size : Z * Z) (kx ky : Z) :
  (loc q0).1 - (loc q1).1 = 2 * kx → (loc q0).2 - (loc q1).2 = 2 * ky →
  ∃ xd yd,
    Planar._walk_direction q0 q1 size = Ok (Z.abs kx, Z.abs ky, xd, yd)
    ∧ (loc q1).1 + 2 * xd.1 * Z.abs kx = (loc q0).1
    ∧ (loc q0).2 + 2 * yd.2 * Z.abs ky = (loc q1).2.
Proof.
  intros Hkx Hky. unfold Planar._walk_direction, py_int.
  destruct (loc q0) as [x0 y0], (loc q1) as [x1 y1]. cbn [fst snd] in *.
  replace (x0 - x1) with (kx * 2) by lia. replace (y0 - y1) with (ky * 2) by lia.
  rewrite !Z.quot_mul by lia.
  eexists _, _. split; [reflexivity|].
  destruct (decide (kx > 0)), (decide (ky > 0)); cbn [fst snd]; lia.
Qed.

Lemma planar_walk_direction_reaches_witness :
  ((loc (site 1)).1 - (loc (bsite 5)).1 = 2 * (-4)
   ∧ (loc (site 1)).2 - (loc (bsite 5)).2 = 2 * 0)
  ∧ ∃ xd yd,
      Planar._walk_direction (site 1) (bsite 5) (5, 1) = Ok (4, 0, xd, yd)
      ∧ (loc (bsite 5)).1 + 2 * xd.1 * 4 = (loc (site 1)).1.
Proof.
  split; [split; reflexivity|].
  destruct (planar_walk_direction_reaches (site 1) (bsite 5) (5, 1) (-4) 0
              eq_refl eq_refl) as (xd & yd & Heq & Hx & _).
  exists xd, yd. split; [exact Heq|exact Hx].
Defined.

Lemma planar_correction_weight_is_get_weight_aux `{Lattice L} (c c' : L)
    (aq0 aq1 : Qubit) (w : Z) :
  Planar._correct_matched_qubits c aq0 aq1 = Ok (w, c') →
  w = Planar.get_weight aq0 aq1.
Proof.
  unfold Planar._correct_matched_qubits, Toric.correct_matched_qubits_with.
  destruct (Toric.decode_layer_qubit c aq0) as [dq0|]; [|done].
  destruct (Toric.decode_layer_qubit c aq1) as [dq1|]; [|done]. cbn [bind].
  unfold Planar._walk_direction, Planar.get_weight.
  destruct (loc aq0) as [x0 y0], (loc aq1) as [x1 y1]. cbn [bind].
  destruct (Toric._walk_and_correct c dq0 _ _) as [c1 xv].
  destruct (Toric._walk_and_correct c1 dq1 _ _) as [c2 ?].
  intros [= <- <-]. rewrite !py_int_abs. lia.
Qed.

(** X7. The weight a planar correction returns for a matched pair is the
    planar distance [get_weight] between the two sites, whatever the walks
    flipped. *)
Theorem planar_correction_weight_is_get_weight `{Lattice L} (c c' : L)
    (aq0 aq1 : Qubit) (w : Z) :
  Planar._correct_matched_qubits c aq0 aq1 = Ok (w, c') →
  w = Planar.get_weight aq0 aq1.
Proof. apply planar_correction_weight_is_get_weight_aux. Qed.

Lemma planar_correction_weight_is_get_weight_witness :
  Planar._correct_matched_qubits demo_planar (site 1) (bsite 0)
  = Ok (1, mkDemo (5, 1) false [site 1; site 2; site 3; site 4] [bsite 0; bsite 5]
                  [(1, 0)] (demo_syndrome demo_planar)
                  (demo_syndrome_pseudo demo_planar) demo_row_edges)
  ∧ 1 = Planar.get_weight (site 1) (bsite 0).
Proof.
  assert (Hc : Planar._correct_matched_qubits demo_planar (site 1) (bsite 0)
    = Ok (1, mkDemo (5, 1) false [site 1; site 2; site 3; site 4] [bsite 0; bsite 5]
                    [(1, 0)] (demo_syndrome demo_planar)
                    (demo_syndrome_pseudo demo_planar) demo_row_edges))
    by (vm_compute; reflexivity).
  split; [exact Hc|].
  exact (planar_correction_weight_is_get_weight _ _ _ _ _ Hc).
Defined.

(** ** Planar distance graph, further *)

Lemma py_getitem_nonneg {A : Type} (l : list A) (i : Z) :
  0 ≤ i →
  py_getitem l i = match l !! Z.to_nat i with
                   | Some a => Ok a
                   | None => Raise IndexError
                   end.
Proof.
  intros Hi. unfold py_getitem.
  rewrite (decide_False (P := i < 0)) by lia. by rewrite decide_False by lia.
Qed.

(** X8. Every edge the planar builder returns joins two node indices
    [i < j] below twice the number of tuples, and its weight is never
    negative. *)
Theorem planar_edges_well_formed (qubits : list (Qubit * Qubit))
    (edges : list WEdge) (bi : list string) (ami : list (option Qubit))
    (i j : nat) (w : Z) :
  Planar.get_qubit_distances qubits = Ok (edges, bi, ami) →
  ((i, j), w) ∈ edges →
  (i < j < 2 * length qubits)%nat ∧ 0 ≤ w.
Proof.
  rewrite planar_get_qubit_distances_eq. intros [= <- <- <-]. unfold planar_edges.
  rewrite !elem_of_app, !elem_of_pairs_from, elem_of_lookup_imap.
  intros [(a & b & qa & qb & -> & -> & Hlt & _ & Hb & ->)|
          [(k & t & Heq & Hk)|(a & b & qa & qb & -> & -> & Hlt & _ & Hb & ->)]].
  - apply lookup_lt_Some in Hb. rewrite length_map in Hb. split; [lia|].
    unfold Planar.get_weight. destruct (loc qa) as [xa ya], (loc qb) as [xb yb].
    pose proof (py_int_nonneg (Z.abs (xa - xb)) ltac:(lia)).
    pose proof (py_int_nonneg (Z.abs (ya - yb)) ltac:(lia)). lia.
  - injection Heq as -> -> ->. apply lookup_lt_Some in Hk. split; [lia|].
    unfold boundary_weight. apply py_int_nonneg. lia.
  - apply lookup_lt_Some in Hb. rewrite length_map in Hb. split; lia.
Qed.

Lemma planar_edges_well_formed_witness :
  ∃ bi ami,
    Planar.get_qubit_distances [(site 1, bsite 0)] = Ok ([((0%nat, 1%nat), 1)], bi, ami)
    ∧ ((0%nat, 1%nat), 1) ∈ [((0%nat, 1%nat), 1)]
    ∧ (0 < 1 < 2 * 1)%nat ∧ 0 ≤ 1.
Proof.
  eexists _, _.
  assert (Heq : Planar.get_qubit_distances [(site 1, bsite 0)]
                = Ok ([((0%nat, 1%nat), 1)], _, _)) by reflexivity.
  split; [exact Heq|].
  assert (Hin : ((0%nat, 1%nat), 1) ∈ [((0%nat, 1%nat), 1)])
    by (by apply list_elem_of_singleton).
  split; [exact Hin|].
  exact (planar_edges_well_formed _ _ _ _ _ _ _ Heq Hin).
Defined.

(** X9. After the planar builder, the two index maps agree with the way
    the corrector reads an index: for every node index from 0 below twice
    the number of tuples, [ancillas_matchingind] holds the very site that
    [correct_matching] takes for it, and [boundary_info] is empty there
    exactly when the index is below the number of tuples. *)
Theorem planar_index_maps_agree (qubits : list (Qubit * Qubit))
    (edges : list WEdge) (bi : list string) (ami : list (option Qubit)) (i : Z) :
  Planar.get_qubit_distances qubits = Ok (edges, bi, ami) →
  0 ≤ i < 2 * Z.of_nat (length qubits) →
  (∃ q, Planar.matchingind ami i = Ok q ∧ Planar.matched_site qubits i = Ok q)
  ∧ (py_getitem bi i = Ok EmptyString ↔ i < Z.of_nat (length qubits)).
Proof.
  rewrite planar_get_qubit_distances_eq. intros [= <- <- <-] Hi.
  unfold Planar.matchingind, Planar.matched_site.
  destruct (decide (i < Z.of_nat (length qubits))) as [Hlt|Hge].
  - destruct (lookup_lt_is_Some_2 qubits (Z.to_nat i)) as [[a p] Ht]; [lia|].
    rewrite !py_getitem_nonneg by lia.
    rewrite (planar_matchingind_real qubits _ a p Ht), Ht. cbn [bind fst].
    split; [by exists a|].
    rewrite planar_boundary_info_real by lia. done.
  - destruct (lookup_lt_is_Some_2 qubits (Z.to_nat (i - Z.of_nat (length qubits))))
      as [[a p] Ht]; [lia|].
    rewrite !py_getitem_nonneg by lia.
    replace (Z.to_nat i)
      with (length qubits + Z.to_nat (i - Z.of_nat (length qubits)))%nat by lia.
    rewrite (planar_matchingind_pseudo qubits _ a p Ht), Ht. cbn [bind snd].
    split; [by exists p|].
    rewrite (planar_boundary_info_pseudo qubits _ a p Ht). unfold boundary_tag.
    split; [|lia]. destruct (decide ((loc p).1 = 0)); intros [= ].
Qed.

Lemma planar_index_maps_agree_witness :
  ∃ edges bi ami,
    Planar.get_qubit_distances (demo_syndrome_pseudo demo_wide).1 = Ok (edges, bi, ami)
    ∧ 0 ≤ 3 < 2 * Z.of_nat (length (demo_syndrome_pseudo demo_wide).1)
    ∧ Planar.matchingind ami 3 = Ok (lbsite 10 0)
    ∧ Planar.matched_site (demo_syndrome_pseudo demo_wide).1 3 = Ok (lbsite 10 0).
Proof.
  destruct (Planar.get_qubit_distances (demo_syndrome_pseudo demo_wide).1)
    as [[[edges bi] ami]|e] eqn:Heq; [|vm_compute in Heq; discriminate Heq].
  exists edges, bi, ami. split; [reflexivity|].
  assert (Hi : 0 ≤ 3 < 2 * Z.of_nat (length (demo_syndrome_pseudo demo_wide).1))
    by (simpl; lia).
  split; [exact Hi|].
  destruct (planar_index_maps_agree _ _ _ _ 3 Heq Hi) as ((q & Hq1 & Hq2) & _).
  assert (Hq : q = lbsite 10 0).
  { assert (Hs : Planar.matched_site (demo_syndrome_pseudo demo_wide).1 3
                 = Ok (lbsite 10 0)) by (vm_compute; reflexivity).
    rewrite Hs in Hq2. by injection Hq2. }
  subst q. split; [exact Hq1|exact Hq2].
Defined.

(** ** Applying a matching, further *)

Lemma planar_correct_pairs_weight `{Lattice L} (syndromes : list (Qubit * Qubit))
    (matching : list (Z * Z)) (w0 w : Z) (c c' : L) :
  planar_correct_pairs syndromes matching (w0, c) = Ok (w, c') →
  w = w0 + foldr (fun p acc => planar_pair_weight syndromes p + acc) 0 matching.
Proof.
  unfold planar_correct_pairs.
  revert w0 c. induction matching as [|[i0 i1] m IH]; intros w0 c.
  - simpl. intros [= <- <-]. lia.
  - cbn [for_each foldr]. unfold planar_pair_weight at 1. cbn [fst snd].
    destruct (decide (i0 < Z.of_nat (length syndromes)
                      ∨ i1 < Z.of_nat (length syndromes))).
    + destruct (Planar.matched_site syndromes i0) as [aq0|]; [|done].
      destruct (Planar.matched_site syndromes i1) as [aq1|]; [|done]. cbn [bind].
      destruct (Planar._correct_matched_qubits c aq0 aq1) as [[w1 c1]|] eqn:Hc;
        [|done].
      cbn [bind]. intros Hrest. apply IH in Hrest.
      apply planar_correction_weight_is_get_weight_aux in Hc. lia.
    + intros Hrest. apply IH in Hrest. lia.
Qed.

(** X10. The total weight the planar [correct_matching] returns is the sum,
    over the matched pairs with an index below the number of tuples, of the
    planar distance between the two sites of the pair. *)
Theorem planar_correct_matching_weight `{Lattice L} (s s' : Sim L)
    (syndromes : list (Qubit * Qubit)) (matching : list (Z * Z)) (w : Z) :
  Planar.correct_matching s syndromes matching = Ok (w, s') →
  w = foldr (fun p acc => planar_pair_weight syndromes p + acc) 0 matching.
Proof.
  unfold Planar.correct_matching. rewrite planar_correct_loop.
  destruct (planar_correct_pairs _ _ _) as [[w' c']|] eqn:Hp; [|done].
  cbn [bind]. intros [= <- _].
  apply planar_correct_pairs_weight in Hp. lia.
Qed.

Lemma planar_correct_matching_weight_witness :
  ∃ s',
    Planar.correct_matching (demo_sim demo_wide) (demo_syndrome_pseudo demo_wide).1
                            [(0, 1); (2, 3)] = Ok (3, s')
    ∧ 3 = planar_pair_weight (demo_syndrome_pseudo demo_wide).1 (0, 1)
          + (planar_pair_weight (demo_syndrome_pseudo demo_wide).1 (2, 3) + 0).
Proof.
  destruct (Planar.correct_matching (demo_sim demo_wide)
              (demo_syndrome_pseudo demo_wide).1 [(0, 1); (2, 3)])
    as [[w s']|e] eqn:Heq; [|vm_compute in Heq; discriminate Heq].
  pose proof (planar_correct_matching_weight _ _ _ _ _ Heq) as Hw.
  assert (Hw3 : w = 3) by (rewrite Hw; vm_compute; reflexivity).
  revert Hw. rewrite Hw3. intros Hw. exists s'. split; [reflexivity|exact Hw].
Defined.

(** ** Matching adapter, further *)

Lemma blossomv_omap_fst (k : nat) (l : list Z) :
  NoDup (omap (fun '(i0, i1) =>
                 if decide (Z.of_nat i0 > i1) then Some (Z.of_nat i0, i1) else None)
              (enumerate_from k l)).*1
  ∧ ∀ a b, (a, b) ∈ omap (fun '(i0, i1) =>
                 if decide (Z.of_nat i0 > i1) then Some (Z.of_nat i0, i1) else None)
              (enumerate_from k l) → Z.of_nat k ≤ a.
Proof.
  revert k. induction l as [|x l IH]; intros k.
  - split; [constructor|]. intros a b Hin. by apply elem_of_nil in Hin.
  - rewrite enumerate_from_cons. cbn [omap list_omap].
    destruct (IH (S k)) as [Hnd Hge].
    destruct (decide (Z.of_nat k > x)).
    + split.
      * cbn [fmap list_fmap fst]. constructor; [|exact Hnd].
        intros Hin. apply list_elem_of_fmap in Hin as ([a b] & Heq & Hin).
        simpl in Heq. subst a. apply Hge in Hin. lia.
      * intros a b Hin. apply elem_of_cons in Hin as [[= -> ->]|Hin]; [lia|].
        apply Hge in Hin. lia.
    + split; [exact Hnd|]. intros a b Hin. apply Hge in Hin. lia.
Qed.

Lemma match_blossomv_spec `{Services}
    (pyMatching : Z → Z → list Z → list Z → list Z → list Z)
    (edges : list WEdge) (num_nodes : nat) :
  PMlib = Some pyMatching → num_nodes ≠ 0%nat →
  ∃ matching : list (Z * Z),
    Toric.match_blossomv edges num_nodes = Ok matching
    ∧ (∀ a b, (a, b) ∈ matching ↔
         ∃ i : nat, a = Z.of_nat i
           ∧ blossomv_partners pyMatching edges num_nodes !! i = Some b ∧ b < a)
    ∧ NoDup matching.*1
    ∧ (∀ i j : nat,
         (j < i)%nat →
         blossomv_partners pyMatching edges num_nodes !! i = Some (Z.of_nat j) →
         blossomv_partners pyMatching edges num_nodes !! j = Some (Z.of_nat i) →
         (Z.of_nat i, Z.of_nat j) ∈ matching ∧ (Z.of_nat j, Z.of_nat i) ∉ matching)
    ∧ (length (blossomv_partners pyMatching edges num_nodes) = num_nodes →
       ∀ a b, (a, b) ∈ matching → b < a < Z.of_nat num_nodes).
Proof.
  intros Hlib Hn. unfold Toric.match_blossomv.
  rewrite decide_False by done. rewrite Hlib.
  fold (blossomv_partners pyMatching edges num_nodes).
  set (partner := blossomv_partners pyMatching edges num_nodes).
  eexists. split; [reflexivity|].
  assert (Hchar : ∀ a b,
    (a, b) ∈ omap (fun '(i0, i1) =>
                     if decide (Z.of_nat i0 > i1) then Some (Z.of_nat i0, i1) else None)
                  (enumerate partner)
    ↔ ∃ i : nat, a = Z.of_nat i ∧ partner !! i = Some b ∧ b < a).
  { intros a b. rewrite list_elem_of_omap. split.
    - intros ([i0 i1] & Hin & Hf).
      apply elem_of_enumerate_from in Hin as (j & -> & Hj). simpl in Hf.
      destruct (decide (Z.of_nat j > i1)); [|done]. injection Hf as <- <-.
      exists j. split; [done|]. split; [done|lia].
    - intros (i & -> & Hi & Hlt). exists (i, b). split.
      + apply elem_of_enumerate_from. by exists i.
      + simpl. by rewrite decide_True by lia. }
  split; [exact Hchar|]. split; [apply (blossomv_omap_fst 0 partner)|]. split.
  - intros i j Hji Hi Hj. split.
    + apply Hchar. exists i. split; [done|]. split; [done|lia].
    + intros (k & Hk & Hpk & Hlt)%Hchar. lia.
  - intros Hlen a b (i & -> & Hi & Hlt)%Hchar.
    apply lookup_lt_Some in Hi. lia.
Qed.

(** X11. With the library present and a nonzero node count, the Blossom V
    backend returns exactly the pairs (node, partner) whose partner is
    smaller than the node.  No node comes first in two pairs; two nodes
    that are each other's partner are reported once, larger node first; and
    when the partner array has one entry per node, both indices of every
    pair are below the node count. *)
Theorem blossomv_pairs `{Services}
    (pyMatching : Z → Z → list Z → list Z → list Z → list Z)
    (edges : list WEdge) (num_nodes : nat) :
  PMlib = Some pyMatching → num_nodes ≠ 0%nat →
  ∃ matching : list (Z * Z),
    Toric.match_blossomv edges num_nodes = Ok matching
    ∧ (∀ a b, (a, b) ∈ matching ↔
         ∃ i : nat, a = Z.of_nat i
           ∧ blossomv_partners pyMatching edges num_nodes !! i = Some b ∧ b < a)
    ∧ NoDup matching.*1
    ∧ (∀ i j : nat,
         (j < i)%nat →
         blossomv_partners pyMatching edges num_nodes !! i = Some (Z.of_nat j) →
         blossomv_partners pyMatching edges num_nodes !! j = Some (Z.of_nat i) →
         (Z.of_nat i, Z.of_nat j) ∈ matching ∧ (Z.of_nat j, Z.of_nat i) ∉ matching)
    ∧ (length (blossomv_partners pyMatching edges num_nodes) = num_nodes →
       ∀ a b, (a, b) ∈ matching → b < a < Z.of_nat num_nodes).
Proof. apply match_blossomv_spec. Qed.

Lemma blossomv_pairs_witness :
  @PMlib demo_blossom = Some demo_pyMatching ∧ 4%nat ≠ 0%nat
  ∧ @Toric.match_blossomv demo_blossom [] 4 = Ok [(1, 0); (3, 2)].
Proof.
  split; [reflexivity|]. split; [lia|].
  destruct (@blossomv_pairs demo_blossom demo_pyMatching [] 4 eq_refl ltac:(lia))
    as (matching & Heq & _).
  rewrite Heq. vm_compute in Heq. injection Heq as <-. reflexivity.
Defined.

(** X12. The planar decoder hands the backend the number of tuples as the
    node count, although the graph has twice as many nodes.  With the
    Blossom V backend, whose partner array has one entry per counted node,
    both indices of every pair of the planar matching are therefore below
    the number of tuples: no boundary node is ever matched. *)
Theorem planar_blossomv_pairs_are_real `{Lattice L, Services}
    (pyMatching : Z → Z → list Z → list Z → list Z → list Z)
    (s s' : Sim L) (syndromes : list (Qubit * Qubit)) (matching : list (Z * Z)) :
  PMlib = Some pyMatching →
  length (blossomv_partners pyMatching (planar_edges syndromes) (length syndromes))
  = length syndromes →
  Planar.match_syndromes s syndromes true = Ok (matching, s') →
  ∀ a b, (a, b) ∈ matching → b < a < Z.of_nat (length syndromes).
Proof.
  intros Hlib Hlen Hm a b Hin.
  apply planar_match_syndromes_calls in Hm as (Hm & _). cbn [Toric.matching_graph] in Hm.
  destruct (decide (length syndromes = 0%nat)) as [Hz|Hnz].
  - unfold Toric.match_blossomv in Hm. rewrite decide_True in Hm by done.
    injection Hm as <-. by apply elem_of_nil in Hin.
  - destruct (match_blossomv_spec pyMatching (planar_edges syndromes)
                (length syndromes) Hlib Hnz) as (m & Heq & _ & _ & _ & Hlt).
    rewrite Heq in Hm. injection Hm as <-. by apply Hlt.
Qed.

Lemma planar_blossomv_pairs_are_real_witness :
  @PMlib demo_blossom = Some demo_pyMatching
  ∧ length (blossomv_partners demo_pyMatching
              (planar_edges (demo_syndrome_pseudo demo_wide).1) 2) = 2%nat
  ∧ ∃ s', @Planar.match_syndromes _ demo_lattice demo_blossom (demo_sim demo_wide)
            (demo_syndrome_pseudo demo_wide).1 true = Ok ([(1, 0)], s')
          ∧ 0 < 1 < 2.
Proof.
  split; [reflexivity|]. split; [reflexivity|].
  destruct (@Planar.match_syndromes _ demo_lattice demo_blossom (demo_sim demo_wide)
              (demo_syndrome_pseudo demo_wide).1 true)
    as [[m s']|e] eqn:Heq; [|vm_compute in Heq; discriminate Heq].
  assert (Hm : m = [(1, 0)]) by (vm_compute in Heq; by injection Heq as <- _).
  subst m. exists s'. split; [reflexivity|].
  apply (@planar_blossomv_pairs_are_real _ demo_lattice demo_blossom demo_pyMatching
           (demo_sim demo_wide) s' (demo_syndrome_pseudo demo_wide).1 [(1, 0)]
           eq_refl eq_refl Heq 1 0).
  by apply list_elem_of_singleton.
Defined.

(** ** Failure estimator, further *)

Lemma elem_of_set_add (l : list Qubit) (q x : Qubit) :
  x ∈ Planar.set_add l q ↔ x ∈ l ∨ x = q.
Proof.
  unfold Planar.set_add. destruct (decide (q ∈ l)) as [Hin|Hin].
  - split; [by left|]. intros [H | ->]; done.
  - rewrite elem_of_app, list_elem_of_singleton. done.
Qed.

Lemma NoDup_set_add (l : list Qubit) (q : Qubit) :
  NoDup l → NoDup (Planar.set_add l q).
Proof.
  intros Hnd. unfold Planar.set_add. destruct (decide (q ∈ l)) as [Hin|Hin]; [done|].
  apply NoDup_app. split; [done|]. split; [|apply NoDup_singleton].
  intros x Hx Hq. apply list_elem_of_singleton in Hq. by subst.
Qed.

Lemma elem_of_collect (l bn0 : list Qubit) (q : Qubit) :
  q ∈ foldl Planar.set_add bn0 l ↔ q ∈ bn0 ∨ q ∈ l.
Proof.
  revert bn0. induction l as [|x l IH]; intros bn0; cbn [foldl].
  - split; [by left|]. intros [Hq|Hq]; [done|by apply elem_of_nil in Hq].
  - rewrite IH, elem_of_set_add, elem_of_cons. tauto.
Qed.

Lemma NoDup_collect (l bn0 : list Qubit) :
  NoDup bn0 → NoDup (foldl Planar.set_add bn0 l).
Proof.
  revert bn0. induction l as [|x l IH]; intros bn0 Hnd; cbn [foldl]; [done|].
  by apply IH, NoDup_set_add.
Qed.

Lemma elem_of_concat_map {A B : Type} (f : A → list B) (l : list A) (y : B) :
  y ∈ concat (map f l) ↔ ∃ x, x ∈ l ∧ y ∈ f x.
Proof.
  induction l as [|a l IH]; cbn [map concat].
  - split; [intros Hy; by apply elem_of_nil in Hy|].
    intros (x & Hx & _). by apply elem_of_nil in Hx.
  - rewrite elem_of_app, IH. split.
    + intros [Hy|(x & Hx & Hy)].
      * exists a. split; [left|done].
      * exists x. split; [by right|done].
    + intros (x & Hx & Hy). apply elem_of_cons in Hx as [-> |Hx]; [by left|].
      right. by exists x.
Qed.

Lemma elem_of_boundary_ends (q : Qubit) (e : DQEdge) :
  q ∈ boundary_ends e ↔ qubit_type q = "pA" ∧ (q = (nodes e).1 ∨ q = (nodes e).2).
Proof.
  unfold boundary_ends. rewrite list_elem_of_filter, !elem_of_cons, elem_of_nil.
  tauto.
Qed.

(** X13. The first part of the estimator, on a list without edge of type
    "x", returns the empty graph and no boundary node, whatever the error
    rate.  On any other list it raises [KeyError] when the error rate is
    missing and [ZeroDivisionError] when the rate is 1; otherwise it returns
    the graph with one full-weight edge for each edge of type "x", in order,
    and none for any other edge, and the boundary nodes it collects are,
    without repetition, exactly the end nodes of those edges whose qubit
    type is "pA". *)
Theorem structure_graph_spec `{Lattice L} (c : L) (edges : list DQEdge) :
  Planar.structure_graph c edges
  = (if decide (filter (fun e => edge_state_type e = "x") edges = [])
     then Ok ([], [])
     else match p_bitflip c with
          | None => Raise KeyError
          | Some p =>
              if Qeq_bool (1 - p) 0 then Raise ZeroDivisionError
              else Ok (map (fun e => ((nodes e).1, (nodes e).2, w_log_odds p))
                           (filter (fun e => edge_state_type e = "x") edges),
                       boundary_nodes_of edges)
          end)
  ∧ NoDup (boundary_nodes_of edges)
  ∧ ∀ q, q ∈ boundary_nodes_of edges ↔
      qubit_type q = "pA"
      ∧ ∃ e, e ∈ edges ∧ edge_state_type e = "x"
             ∧ (q = (nodes e).1 ∨ q = (nodes e).2).
Proof.
  split; [|split].
  - rewrite structure_graph_eq.
    unfold x_graph, x_edges.
    destruct (decide (filter _ edges = [])) as [Hnil|Hne]; [|done].
    by rewrite boundary_nodes_of_nil.
  - apply NoDup_collect, NoDup_nil_2.
  - intros q. unfold boundary_nodes_of, x_edges.
    rewrite elem_of_collect, elem_of_nil. split.
    + intros [[]|Hq]. apply elem_of_concat_map in Hq as (e & He & Hq).
      apply list_elem_of_filter in He as [Hx He].
      apply elem_of_boundary_ends in Hq as [Hp Hq].
      split; [done|]. by exists e.
    + intros (Hp & e & He & Hx & Hq). right.
      apply elem_of_concat_map. exists e. split.
      * by apply list_elem_of_filter.
      * by apply elem_of_boundary_ends.
Qed.

(** X14. Joining the sides either returns the graph extended, after its
    edges, by one zero-weight edge for each ordered pair of distinct
    boundary nodes of the same side, or fails an assertion; it fails
    exactly when two distinct boundary nodes are both off x = 0 and not
    both at x = size. *)
Theorem connect_sides_spec (size : Z * Z) (boundary_nodes : list Qubit) (G : Graph) :
  Planar.connect_sides size boundary_nodes G
  = if decide (sides_consistent size boundary_nodes)
    then Ok (G ++ side_edges boundary_nodes)
    else Raise AssertionError.
Proof. apply connect_sides_eq. Qed.

Lemma match_blossomv_missing `{Services} (edges : list WEdge) (num_nodes : nat) :
  PMlib = None →
  Toric.match_blossomv edges num_nodes
  = if decide (num_nodes = 0%nat) then Ok [] else Raise FileNotFoundError.
Proof.
  intros Hlib. unfold Toric.match_blossomv.
  destruct (decide (num_nodes = 0%nat)); [done|]. by rewrite Hlib.
Qed.

(** X15. Unless the boundary-node set holds a node at (0, 0) and another
    node with y = 0, the estimator returns no path length: it always
    raises. *)
Theorem calc_phi_needs_both_hubs `{Lattice L, Services} (s : Sim L) :
  (∀ (G : Graph) (bn : list Qubit),
     Planar.structure_graph (code s) (data_qubit_edges_x (code s)) = Ok (G, bn) →
     filter is_origin (set_iter bn) = [] ∨ filter is_opposite (set_iter bn) = []) →
  ∃ e, Planar.calc_phi s = Raise e.
Proof.
  intros Hnone. unfold Planar.calc_phi. cbn [code log boundary_info
    ancillas_matchingind self_matching].
  destruct (Planar.structure_graph (code s) (data_qubit_edges_x (code s)))
    as [[G bn]|e0]; [|by exists e0]. cbn [bind].
  specialize (Hnone G bn eq_refl).
  destruct (Planar.shortcuts _ _ _ _ _) as [G1|e1]; [|by exists e1]. cbn [bind].
  destruct (Planar.connect_sides _ _ _) as [G2|e2]; [|by exists e2]. cbn [bind].
  rewrite select_hubs_last. exists UnboundLocalError.
  destruct Hnone as [-> | ->]; cbn [last]; [done|].
  by destruct (last (filter is_origin (set_iter bn))).
Qed.

Lemma calc_phi_needs_both_hubs_witness :
  (∀ (G : Graph) (bn : list Qubit),
     Planar.structure_graph (code (demo_sim demo_hole))
       (data_qubit_edges_x (code (demo_sim demo_hole))) = Ok (G, bn) →
     filter is_origin (set_iter bn) = [] ∨ filter is_opposite (set_iter bn) = [])
  ∧ Planar.calc_phi (demo_sim demo_hole) = Raise UnboundLocalError.
Proof.
  assert (Hnone : ∀ (G : Graph) (bn : list Qubit),
     Planar.structure_graph (code (demo_sim demo_hole))
       (data_qubit_edges_x (code (demo_sim demo_hole))) = Ok (G, bn) →
     filter is_origin (set_iter bn) = [] ∨ filter is_opposite (set_iter bn) = [])
    by (intros G bn [= <- <-]; left; reflexivity).
  split; [exact Hnone|].
  destruct (calc_phi_needs_both_hubs (demo_sim demo_hole) Hnone) as [e He].
  rewrite He. vm_compute in He. injection He as <-. reflexivity.
Defined.

(** ** The decoding pass, further *)

(** X16. Without the Blossom V library, a planar pass that asks for that
    backend and finds at least one plaquette syndrome raises
    [FileNotFoundError]: the matching step of the plaquettes, the first step
    after the syndromes are extracted, raises it, and the pass raises it in
    turn. *)
Theorem planar_decode_missing_library `{Lattice L, Services} (s : Sim L) :
  PMlib = None →
  (get_syndrome_pseudo (code s)).1 ≠ [] →
  Planar.match_syndromes (log s ExtractSyndromes)
                         (get_syndrome_pseudo (code s)).1 true
  = Raise FileNotFoundError
  ∧ Planar.decode s true = Raise FileNotFoundError.
Proof.
  intros Hlib Hne.
  assert (Hm : Planar.match_syndromes (log s ExtractSyndromes)
                 (get_syndrome_pseudo (code s)).1 true = Raise FileNotFoundError).
  { unfold Planar.match_syndromes. rewrite planar_get_qubit_distances_eq.
    cbn [bind Toric.matching_graph].
    rewrite match_blossomv_missing by done.
    rewrite decide_False by (by destruct (get_syndrome_pseudo (code s)).1). done. }
  split; [exact Hm|].
  unfold Planar.decode. cbn [code log].
  destruct (get_syndrome_pseudo (code s)) as [plaqs stars]. cbn [fst] in Hm.
  by rewrite Hm.
Qed.

Lemma planar_decode_missing_library_witness :
  @PMlib demo_services = None
  ∧ (get_syndrome_pseudo (code (demo_sim demo_planar))).1 ≠ []
  ∧ Planar.match_syndromes (log (demo_sim demo_planar) ExtractSyndromes)
      (get_syndrome_pseudo (code (demo_sim demo_planar))).1 true
    = Raise FileNotFoundError
  ∧ Planar.decode (demo_sim demo_planar) true = Raise FileNotFoundError.
Proof.
  split; [reflexivity|]. split; [discriminate|].
  apply planar_decode_missing_library; [reflexivity|discriminate].
Defined.

(** X17. Without the Blossom V library, a toric pass on a lattice with
    nonzero periods that asks for that backend and finds at least one
    plaquette syndrome raises [FileNotFoundError]. *)
Theorem toric_decode_missing_library `{Lattice L, Services} (s : Sim L) :
  PMlib = None →
  (size (code s)).1 ≠ 0 → (size (code s)).2 ≠ 0 →
  (get_syndrome (code s)).1 ≠ [] →
  Toric.decode s true = Raise FileNotFoundError.
Proof.
  intros Hlib Hx Hy Hne. unfold Toric.decode. cbn [code log].
  destruct (get_syndrome (code s)) as [plaqs stars]. cbn [fst] in Hne.
  unfold Toric.match_syndromes. cbn [code log].
  destruct (size (code s)) as [Px Py]. cbn [fst snd] in Hx, Hy.
  rewrite toric_get_qubit_distances_eq by done.
  cbn [bind Toric.matching_graph].
  rewrite match_blossomv_missing by done.
  rewrite decide_False by (by destruct plaqs). done.
Qed.

Lemma toric_decode_missing_library_witness :
  @PMlib demo_services = None
  ∧ (size (code (demo_sim demo_toric))).1 ≠ 0
  ∧ (size (code (demo_sim demo_toric))).2 ≠ 0
  ∧ (get_syndrome (code (demo_sim demo_toric))).1 ≠ []
  ∧ Toric.decode (demo_sim demo_toric) true = Raise FileNotFoundError.
Proof.
  split; [reflexivity|]. split; [discriminate|]. split; [discriminate|].
  split; [discriminate|].
  apply toric_decode_missing_library; [reflexivity|discriminate..].
Defined.

(** X18. A toric pass that asks for the Blossom V backend and finds no
    syndrome at all returns and leaves the lattice as it was, whether or
    not the library is there: with no node to match the library is never
    loaded. *)
Theorem toric_decode_no_syndrome `{Lattice L, Services} (s : Sim L) :
  get_syndrome (code s) = ([], []) →
  ∃ s', Toric.decode s true = Ok s' ∧ code s' = code s.
Proof.
  intros Hs. unfold Toric.decode. cbn [code log]. rewrite Hs.
  eexists. split; [reflexivity|]. reflexivity.
Qed.

Lemma toric_decode_no_syndrome_witness :
  get_syndrome (code (demo_sim demo_quiet)) = ([], [])
  ∧ ∃ s', Toric.decode (demo_sim demo_quiet) true = Ok s' ∧ code s' = demo_quiet.
Proof.
  split; [reflexivity|].
  exact (toric_decode_no_syndrome (demo_sim demo_quiet) eq_refl).
Defined.

(** ** Walks, further *)

Lemma walk_steps_add `{Lattice L} (n m : nat) (c : L) (qubit : Qubit) (key : Key) :
  Toric.walk_steps (n + m) c qubit key
  = if decide (steps_taken n c qubit key = n)
    then Toric.walk_steps m (Toric.walk_steps n c qubit key).1
                            (Toric.walk_steps n c qubit key).2 key
    else Toric.walk_steps n c qubit key.
Proof.
  revert c qubit. induction n as [|n IH]; intros c qubit.
  - cbn [Nat.add Toric.walk_steps steps_taken fst snd].
    by destruct (decide (0%nat = 0%nat)).
  - cbn [Nat.add Toric.walk_steps steps_taken].
    destruct (correct_edge c qubit key) as [[c' qubit']|e].
    + rewrite IH.
      destruct (decide (steps_taken n c' qubit' key = n)) as [Hn|Hn],
               (decide (S (steps_taken n c' qubit' key) = S n)) as [Hs|Hs];
        try done; lia.
    + destruct (decide (0%nat = S n)) as [Hs|Hs]; [lia|done].
Qed.

(** X19. A walk of [a + b] planned steps is the walk of [a] steps followed,
    from where it ends, by the walk of [b] steps, unless the first part
    stopped early; then it is the first part alone.  A walk of no step or
    of a negative length changes nothing. *)
Theorem walk_and_correct_compose `{Lattice L} (c : L) (qubit : Qubit) (a b : Z)
    (key : Key) :
  0 ≤ a → 0 ≤ b →
  Toric._walk_and_correct c qubit (a + b) key
  = (if decide (steps_taken (Z.to_nat a) c qubit key = Z.to_nat a)
     then Toric._walk_and_correct (Toric._walk_and_correct c qubit a key).1
                                  (Toric._walk_and_correct c qubit a key).2 b key
     else Toric._walk_and_correct c qubit a key)
  ∧ Toric._walk_and_correct c qubit (- a) key = (c, qubit).
Proof.
  intros Ha Hb. unfold Toric._walk_and_correct. split.
  - rewrite Z2Nat.inj_add by done. apply walk_steps_add.
  - replace (Z.to_nat (- a)) with 0%nat by lia. done.
Qed.

Lemma walk_and_correct_compose_witness :
  (0 ≤ 1 ∧ 0 ≤ 1)
  ∧ Toric._walk_and_correct demo_planar (bsite 0) (1 + 1) (1, 0)
    = Toric._walk_and_correct
        (Toric._walk_and_correct demo_planar (bsite 0) 1 (1, 0)).1
        (Toric._walk_and_correct demo_planar (bsite 0) 1 (1, 0)).2 1 (1, 0).
Proof.
  split; [lia|].
  destruct (walk_and_correct_compose demo_planar (bsite 0) 1 1 (1, 0))
    as [Hc _]; [lia|lia|].
  rewrite Hc. reflexivity.
Defined.

(** ** Planar distance and scratch state *)

(** X20. The planar distance is symmetric, never negative, and zero from a
    site to itself. *)
Theorem planar_get_weight_metric (a0 a1 : Qubit) :
  Planar.get_weight a0 a1 = Planar.get_weight a1 a0
  ∧ 0 ≤ Planar.get_weight a0 a1
  ∧ Planar.get_weight a0 a0 = 0.
Proof.
  unfold Planar.get_weight.
  destruct (loc a0) as [x0 y0], (loc a1) as [x1 y1].
  pose proof (py_int_nonneg (Z.abs (x0 - x1)) ltac:(lia)).
  pose proof (py_int_nonneg (Z.abs (y0 - y1)) ltac:(lia)).
  split; [|split; [lia|]].
  - replace (x1 - x0) with (- (x0 - x1)) by lia.
    replace (y1 - y0) with (- (y0 - y1)) by lia.
    replace (z a1 - z a0) with (- (z a0 - z a1)) by lia.
    by rewrite !Z.abs_opp.
  - by rewrite !Z.sub_diag.
Qed.

(** X21. A planar [match_syndromes] that returns leaves the lattice as it
    was and replaces the scratch attributes of the decoder, whatever they
    held before, by the graph, the side tags and the index map of the
    syndromes at hand and by the matching it returns. *)
Theorem planar_match_syndromes_state `{Lattice L, Services} (s s' : Sim L)
    (syndromes : list (Qubit * Qubit)) (use_blossomv : bool)
    (matching : list (Z * Z)) :
  Planar.match_syndromes s syndromes use_blossomv = Ok (matching, s') →
  code s' = code s
  ∧ self_edges s' = planar_edges syndromes
  ∧ self_matching s' = matching
  ∧ boundary_info s' = planar_boundary_info syndromes
  ∧ ancillas_matchingind s' = planar_matchingind syndromes
  ∧ length (boundary_info s') = (2 * length syndromes)%nat
  ∧ length (ancillas_matchingind s') = (2 * length syndromes)%nat.
Proof.
  unfold Planar.match_syndromes. rewrite planar_get_qubit_distances_eq.
  cbn [bind log set_scratch self_edges code config_max_cardinality].
  destruct (Toric.matching_graph _ _ _ _) as [m|]; [|done].
  cbn [bind set_matching self_matching]. intros [= <- <-].
  cbn [code self_edges self_matching boundary_info ancillas_matchingind log
       set_scratch set_matching].
  rewrite planar_boundary_info_length, planar_matchingind_length. done.
Qed.

Lemma planar_match_syndromes_state_witness :
  ∃ s',
    Planar.match_syndromes (demo_sim demo_planar) [(site 1, bsite 0)] false
    = Ok ([(0, 1)], s')
    ∧ code s' = demo_planar
    ∧ boundary_info s' = [EmptyString; "L"]%string.
Proof.
  destruct (Planar.match_syndromes (demo_sim demo_planar) [(site 1, bsite 0)] false)
    as [[m s']|e] eqn:Heq; [|vm_compute in Heq; discriminate Heq].
  assert (Hm : m = [(0, 1)]) by (vm_compute in Heq; by injection Heq as <- _).
  subst m. exists s'. split; [reflexivity|].
  destruct (planar_match_syndromes_state _ _ _ _ _ Heq)
    as (Hc & _ & _ & Hbi & _).
  split; [exact Hc|]. rewrite Hbi. reflexivity.
Defined.
